(** * mnrva.dev: the theme colour resolver and the static site data

  The development follows the sources of the site:
  - [src/utils/textThemeColorTag.ts]: the resolver of the text colour
    class of the configured theme;
  - [src/data/projects.ts]: the list of projects;
  - the two revisions of the presentation record;
  - the metadata headers of the blog posts, and the Go programs that the
    two posts develop: the Lambda handler with its [GCF], and the trivia
    server with its store of questions and its two handlers.

  A JavaScript object is its own properties with those it inherits; the
  records of the data files are records, with options for their optional
  fields. *)

From Stdlib Require Import Ascii String ZArith DecimalString DecimalZ DecimalPos.
From Equations Require Import Equations.
From stdpp Require Import gmap strings list.

Local Open Scope string_scope.

(** ** Property access in JavaScript *)

Module JS.

(** The values that a property of the table, or of what the table
    inherits, can hold: a string, or a function or an object of the
    runtime, which is known by its name. *)
Inductive value :=
  | Undefined
  | Str (s : string)
  | Builtin (name : string).

#[export] Instance value_eq_dec : EqDecision value.
Proof. solve_decision. Defined.

(** An object as a property access sees it: its own properties, and the
    properties of the objects of its prototype chain, the nearest first. *)
Record object := {
  own : gmap string value;
  protos : list (gmap string value)
}.

Fixpoint lookup_chain (chain : list (gmap string value)) (key : string) : value :=
  match chain with
  | [] => Undefined
  | props :: chain' =>
      match props !! key with
      | Some v => v
      | None => lookup_chain chain' key
      end
  end.

(** [o[key]] for a string [key]: the own property of that name, else the
    first one of that name up the prototype chain, else [undefined]. *)
Definition get (o : object) (key : string) : value :=
  lookup_chain (o.(own) :: o.(protos)) key.

(** The properties of [Object.prototype], which every object written as
    a literal inherits: those of ECMAScript and of its Annex B.  The
    accessor [__proto__] answers with the prototype of the object, which
    for a literal is [Object.prototype] itself. *)
Definition Object_prototype : gmap string value :=
  list_to_map [
    ("constructor", Builtin "Object");
    ("hasOwnProperty", Builtin "Object.prototype.hasOwnProperty");
    ("isPrototypeOf", Builtin "Object.prototype.isPrototypeOf");
    ("propertyIsEnumerable", Builtin "Object.prototype.propertyIsEnumerable");
    ("toLocaleString", Builtin "Object.prototype.toLocaleString");
    ("toString", Builtin "Object.prototype.toString");
    ("valueOf", Builtin "Object.prototype.valueOf");
    ("__proto__", Builtin "Object.prototype");
    ("__defineGetter__", Builtin "Object.prototype.__defineGetter__");
    ("__defineSetter__", Builtin "Object.prototype.__defineSetter__");
    ("__lookupGetter__", Builtin "Object.prototype.__lookupGetter__");
    ("__lookupSetter__", Builtin "Object.prototype.__lookupSetter__")
  ].

(** The object that a literal with string values makes. *)
Definition literal (entries : gmap string string) : object :=
  {| own := Str <$> entries; protos := [Object_prototype] |}.

End JS.

(** ** The theme colour resolver *)

Module ThemeColor.
Import JS.

(** [theme.colors.primary] is the only path of the theme configuration
    the resolver reads.  The module [@/data/theme] that declares the
    configuration is not part of the sources at hand, so the remaining
    fields of both objects are kept abstract. *)
Record Colors (CR : Type) := {
  primary : string;
  colors_rest : CR
}.
Arguments primary {CR} _.
Arguments colors_rest {CR} _.

Record Theme (CR TR : Type) := {
  colors : Colors CR;
  theme_rest : TR
}.
Arguments colors {CR TR} _.
Arguments theme_rest {CR TR} _.

Section Resolver.
Context {CR TR : Type}.

(** The two imported bindings.  [MAP_COLOR_VARIANT_TO_TEXT] is an object
    of [./mapVariants], which is indexed by a string. *)
Variable theme : Theme CR TR.
Variable MAP_COLOR_VARIANT_TO_TEXT : object.

(** [export default function textThemeColorTag() {
       return MAP_COLOR_VARIANT_TO_TEXT[theme.colors.primary] }] *)
Definition textThemeColorTag : value :=
  get MAP_COLOR_VARIANT_TO_TEXT theme.(colors).(primary).
End Resolver.

(** The bindings a call can see: the two imported modules. *)
Record Store (CR TR : Type) := {
  mod_theme : Theme CR TR;
  mod_mapVariants : object
}.
Arguments mod_theme {CR TR} _.
Arguments mod_mapVariants {CR TR} _.

(** A call of the function in a store: the returned value and the store
    after the call.  The body holds no assignment and no call, so the
    store after the call is the store before it. *)
Definition call {CR TR : Type} (σ : Store CR TR) : value * Store CR TR :=
  (textThemeColorTag σ.(mod_theme) σ.(mod_mapVariants), σ).

(** Modelled from the spec: the invariant of the theme colour mapping,
    "every color identifier usable as primary must have a corresponding
    entry", between an enumeration [E] of colour identifiers and a table.
    The declarations of both, in [@/data/theme] and [./mapVariants], are
    missing from the sources; an entry is an own property whose value is
    a style token. *)
Definition covers (E : gset string) (tbl : object) : Prop :=
  ∀ c, c ∈ E → ∃ tok, tbl.(own) !! c = Some (Str tok).

(** Modelled from the spec: the enumeration of the supported colour
    identifiers, missing from the sources, as far as the spec spells it
    out: it names "the supported identifier primary-blue". *)
Definition spec_enumeration : gset string := {[ "primary-blue" ]}.

(** Modelled from the spec: the table of [./mapVariants], missing from
    the sources, as far as the spec spells it out: "the supported
    identifier primary-blue mapped to token text-blue-500 in the fixed
    table".  The table is taken to be written as an object literal. *)
Definition spec_table : object :=
  literal {[ "primary-blue" := "text-blue-500" ]}.

(** A theme whose primary colour is a given identifier. *)
Definition theme_of (c : string) : Theme unit unit :=
  {| colors := {| primary := c; colors_rest := tt |}; theme_rest := tt |}.

(** The store of a site whose table is [spec_table]. *)
Definition spec_store (c : string) : Store unit unit :=
  {| mod_theme := theme_of c; mod_mapVariants := spec_table |}.

(** Stores with the same table and the same primary colour, and themes
    that differ elsewhere. *)
Definition blue_store (dark : bool) : Store unit bool :=
  {| mod_theme := {| colors := {| primary := "primary-blue"; colors_rest := tt |};
                     theme_rest := dark |};
     mod_mapVariants := spec_table |}.



End ThemeColor.


(** ** The projects list, [src/data/projects.ts] *)

Module Projects.

(** [export type Project]; [isComingSoon?] is an optional field. *)
Record Project := {
  title : string;
  techs : list string;
  link : string;
  isComingSoon : option bool
}.

Definition projects : list Project := [
  {| title := "Massflip";
     techs := ["Go"; "Vue.js"; "AWS"; "MongoDB"];
     link := "https://github.com/gabehf/massflip";
     isComingSoon := None |};
  {| title := "CostIn.Coffee";
     techs := ["HTML/CSS/JS"; "jQuery"];
     link := "https://costin.coffee";
     isComingSoon := None |};
  {| title := "Budget Buddy";
     techs := ["React"; "Go"; "MongoDB"];
     link := "https://github.com/gabehf/budgetbuddy";
     isComingSoon := None |}
].

(** The second record of the list, by itself. *)
Definition costin_coffee : Project :=
  {| title := "CostIn.Coffee";
     techs := ["HTML/CSS/JS"; "jQuery"];
     link := "https://costin.coffee";
     isComingSoon := None |}.

End Projects.

(** ** The presentation record, in its two revisions *)

Module Presentation.

Record Social := {
  label : string;
  link : string
}.

(** [type Presentation]; [profile?] is an optional field. *)
Record Presentation := {
  mail : string;
  title : string;
  description : string;
  socials : list Social;
  profile : option string
}.

(** A backslash at the end of a line of a string literal continues the
    literal on the next line and contributes nothing to the string: the
    pieces below are the source lines of the literal, each next one with
    its leading blanks. *)
Definition continued (lines : list string) : string :=
  foldr String.append "" lines.

(** The record [pr] with its description replaced. *)
Definition with_description (d : string) (pr : Presentation) : Presentation :=
  {| mail := pr.(mail); title := pr.(title); description := d;
     socials := pr.(socials); profile := pr.(profile) |}.

End Presentation.

(** The revision whose description starts with "I'm a *full stack
    developer*". *)
Module PresentationA.
Import Presentation.

Definition presentation : Presentation := {|
  mail := "gabe@mnrva.dev";
  title := "Hey, I’m Gabe 👋";
  profile := None;
  description := continued [
    "I'm a *full stack developer* with about one year of professional experience.";
    "     You will often find me working with *Go, NodeJS and Ruby*. I love";
    "     to spend my time learning everything I can about emerging technologies in *cloud computing* and";
    "     *API development*. When I'm not working, I play guitar and am an avid gamer."
  ];
  socials := [
    {| label := "View my GitHub";
       link := "https://github.com/gabehf" |}
  ]
|}.

End PresentationA.

(** The revision whose description starts with "I'm a recent *CS
    graduate*". *)
Module PresentationB.
Import Presentation.

Definition presentation : Presentation := {|
  mail := "gabe@mnrva.dev";
  title := "Hey, I’m Gabe 👋";
  profile := None;
  description := continued [
    "I'm a recent *CS graduate* with professional *full stack development* experience.";
    "     You will often find me working with *Go, NodeJS and Python*. I love";
    "     to spend my time learning everything I can about emerging technologies in *cloud computing* and";
    "     *API development*. When I'm not working, I play guitar and am an avid gamer."
  ];
  socials := [
    {| label := "View my GitHub";
       link := "https://github.com/gabehf" |}
  ]
|}.

End PresentationB.

(** Both revisions. *)
Definition revisions : list Presentation.Presentation :=
  [PresentationA.presentation; PresentationB.presentation].

(** ** The blog posts *)

Module Blog.

(** [publishedAt] is a calendar date, written [YYYY-MM-DD]. *)
Record Date := {
  year : nat;
  month : nat;
  day : nat
}.

(** The metadata header of a post.  The body that follows the header
    plays no part in what is proved and is not transcribed. *)
Record BlogDocument := {
  title : string;
  publishedAt : Date;
  description : string;
  slug : string;
  isPublish : bool
}.

Definition creating_serverless_lambda_go : BlogDocument := {|
  title := "Creating Serverless Applications with AWS Lambda and Go";
  publishedAt := {| year := 2023; month := 11; day := 23 |};
  description := "Learn how to deploy your first AWS Lambda serverless function using Go with this step-by-step guide.";
  slug := "creating-serverless-lambda-go";
  isPublish := true
|}.

Definition stateless_containerized_trivia_api_go : BlogDocument := {|
  title := "Building a Stateless, Containerized Trivia API in Golang";
  publishedAt := {| year := 2023; month := 12; day := 9 |};
  description := "Follow along as I build a stateless trivia API in Go and containerize it with Docker.";
  slug := "stateless-containerized-trivia-api-go";
  isPublish := true
|}.

(** The posts of the site. *)
Definition corpus : list BlogDocument :=
  [creating_serverless_lambda_go; stateless_containerized_trivia_api_go].

(** Modelled from the spec: the selection of the published posts, done by
    the presentation layer, which is missing from the sources: "filtering
    by isPublish=true returns exactly the documents whose flag is true". *)
Definition filterPublished (docs : list BlogDocument) : list BlogDocument :=
  filter (λ d, d.(isPublish) = true) docs.

End Blog.

(** ** Syntax of URLs

    What "a syntactically valid URL" is taken to mean for the links of
    the site: the generic syntax of RFC 3986 for a URI with an authority,
    [scheme "://" authority rest], where the scheme is a letter followed
    by letters, digits, [+], [-] and [.], the authority is not empty, and
    the rest is empty or starts with [/], [?] or [#]; every character is
    an unreserved character, a sub-delimiter, or one of the delimiters
    its part of the URL admits. *)

Module Url.

Definition between (lo hi : nat) (c : ascii) : bool :=
  (lo <=? nat_of_ascii c)%nat && (nat_of_ascii c <=? hi)%nat.

Definition one_of (set : string) (c : ascii) : bool :=
  existsb (Ascii.eqb c) (list_ascii_of_string set).

Definition is_alpha (c : ascii) : bool := between 65 90 c || between 97 122 c.
Definition is_digit (c : ascii) : bool := between 48 57 c.
Definition is_scheme_char (c : ascii) : bool :=
  is_alpha c || is_digit c || one_of "+-." c.
Definition is_unreserved (c : ascii) : bool :=
  is_alpha c || is_digit c || one_of "-._~" c.
Definition is_sub_delim (c : ascii) : bool := one_of "!$&'()*+,;=" c.
Definition is_authority_char (c : ascii) : bool :=
  is_unreserved c || is_sub_delim c || one_of "%:@[]" c.
Definition is_rest_char (c : ascii) : bool :=
  is_authority_char c || one_of "/?#" c.

(** The longest prefix of characters that satisfy [p], and what follows. *)
Fixpoint span (p : ascii → bool) (l : list ascii) : list ascii * list ascii :=
  match l with
  | c :: l' =>
      if p c then let '(a, b) := span p l' in (c :: a, b) else ([], l)
  | [] => ([], [])
  end.

Definition valid_url (s : string) : bool :=
  let '(scheme, after) := span is_scheme_char (list_ascii_of_string s) in
  match scheme, after with
  | c :: _, ":" :: "/" :: "/" :: after' =>
      let '(authority, rest) := span is_authority_char after' in
      is_alpha c && negb (bool_decide (authority = [])) && forallb is_rest_char rest
  | _, _ => false
  end%char.

End Url.

(** * The Go programs of the blog posts

    The posts develop two programs in Go, listing by listing: a Lambda
    handler that computes a greatest common factor, and a trivia server.
    What follows is the part of Go they rely on.  An [int] is a 64-bit
    signed integer, carried by [Z]; a string is a sequence of bytes; a
    run either returns or panics. *)

Module Go.
Local Open Scope Z_scope.

Inductive panic := DivideByZero | IndexOutOfRange.

Inductive outcome (A : Type) :=
  | Return (a : A)
  | Panicked (p : panic).
Arguments Return {A} a.
Arguments Panicked {A} p.

#[export] Instance outcome_ret : MRet outcome := λ A a, Return a.
#[export] Instance outcome_bind : MBind outcome := λ A B f m,
  match m with
  | Return a => f a
  | Panicked p => Panicked p
  end.

Definition int_min : Z := - 2 ^ 63.
Definition int_max : Z := 2 ^ 63 - 1.
Definition is_int (n : Z) : Prop := int_min ≤ n ≤ int_max.

(** [len(l)] *)
Definition len {A} (l : list A) : Z := Z.of_nat (length l).

(** [a % b]: the remainder has the sign of [a]; a zero divisor panics.
    No remainder overflows. *)
Definition rem (a b : Z) : outcome Z :=
  if decide (b = 0) then Panicked DivideByZero else Return (Z.rem a b).

(** [l[i]] *)
Definition index {A} (l : list A) (i : Z) : outcome A :=
  match (if decide (i < 0) then None else l !! Z.to_nat i) with
  | Some x => Return x
  | None => Panicked IndexOutOfRange
  end.

(** [l[i], l[j] = l[j], l[i]] *)
Definition swap {A} (l : list A) (i j : Z) : outcome (list A) :=
  x ← index l i;
  y ← index l j;
  Return (<[Z.to_nat j := x]> (<[Z.to_nat i := y]> l)).

(** [strings.Split(s, sep)] for a separator [sep] of one byte: the
    pieces of [s] between the occurrences of the separator, one more
    than there are occurrences. *)
Fixpoint Split (s : string) (sep : ascii) : list string :=
  match s with
  | EmptyString => [EmptyString]
  | String c s' =>
      if Ascii.eqb c sep then EmptyString :: Split s' sep
      else match Split s' sep with
           | piece :: pieces => String c piece :: pieces
           | [] => [String c EmptyString]
           end
  end.

(** [strings.Count(s, sep)] for a separator of one byte. *)
Fixpoint Count (s : string) (sep : ascii) : nat :=
  match s with
  | EmptyString => 0
  | String c s' => (if Ascii.eqb c sep then 1 else 0) + Count s' sep
  end%nat.

(** The value of a decimal digit. *)
Definition digit (c : ascii) : option Z :=
  let n := Z.of_nat (nat_of_ascii c) in
  if decide (48 ≤ n ≤ 57) then Some (n - 48) else None.

Fixpoint digits (s : string) (acc : Z) : option Z :=
  match s with
  | EmptyString => Some acc
  | String c s' => d ← digit c; digits s' (acc * 10 + d)
  end.

(** [strconv.Atoi(s)]: [None] stands for a non-nil error.  An optional
    sign, then one decimal digit at least and nothing else; a value that
    is no [int] is a range error. *)
Definition Atoi (s : string) : option Z :=
  match s with
  | EmptyString => None
  | String c rest =>
      let '(negative, body) :=
        if Ascii.eqb c "-"%char then (true, rest)
        else if Ascii.eqb c "+"%char then (false, rest)
        else (false, s) in
      match body with
      | EmptyString => None
      | _ =>
          n ← digits body 0;
          let v := if negative : bool then - n else n in
          if decide (is_int v) then Some v else None
      end
  end.

(** [strconv.Itoa(n)] *)
Definition Itoa (n : Z) : string :=
  DecimalString.NilEmpty.string_of_int (Z.to_int n).

(** The functions of package [strings] that work on Unicode letters;
    their tables are no part of the posts. *)
Class Strings := {
  ToLower : string → string;
  EqualFold : string → string → bool
}.

End Go.

(** ** The Lambda handler of the first post *)

Module Lambda.
Local Open Scope Z_scope.

(** [func GCF(a, b int) int]:
    [for b != 0 { t := b; b = a % b; a = t }; return a] *)
#[local] Unset Equations With Funext.
Equations? GCF (a b : Z) : Z by wf (Z.abs_nat b) lt :=
  GCF a b with decide (b = 0) := {
    | left _ => a
    | right _ => GCF b (Z.rem a b)
  }.
Proof.
  pose proof (Z.rem_bound_abs a b). lia.
Defined.

Record Request := { A : Z; B : Z }.
Record Response := { Result : Z }.

(** [func HandleRequests(ctx context.Context, req Request) (Response, error)];
    the error returned is always [nil]. *)
Definition HandleRequests (req : Request) : Response * option string :=
  ({| Result := GCF req.(A) req.(B) |}, None).

End Lambda.


(** ** The trivia module of the second post, [trivia/questions.go] *)

Module Trivia.
Import Go.
Local Open Scope Z_scope.

(** [type Question struct]; the field [Question] is [Text] here.  A
    question without a [choices] entry has a nil slice of choices. *)
Record Question := {
  Text : string;
  Category : string;
  Format : string;
  Choices : option (list string);
  Answer : string
}.

(** [type Questions struct]; the lock is left out, the calls are taken
    one at a time. *)
Record Questions := {
  Categories : list string;
  M : gmap string (list Question)
}.

(** [q.M[cat]]: a missing key gives the nil slice. *)
Definition at_key (q : Questions) (cat : string) : list Question :=
  default [] (q.(M) !! cat).

(** A [*Question] into the store: the address of [q.M[category][index]]. *)
Record Ptr := {
  at_category : string;
  at_index : Z
}.

(** [&q.M[category][index]] *)
Definition addr (q : Questions) (category : string) (index : Z) : outcome Ptr :=
  _ ← Go.index (at_key q category) index;
  Return {| at_category := category; at_index := index |}.

(** [*p] *)
Definition load (q : Questions) (p : Ptr) : outcome Question :=
  Go.index (at_key q p.(at_category)) p.(at_index).

(** [*p = v] *)
Definition store (q : Questions) (p : Ptr) (v : Question) : Questions :=
  {| Categories := q.(Categories);
     M := <[p.(at_category) :=
             <[Z.to_nat p.(at_index) := v]> (at_key q p.(at_category))]> q.(M) |}.

Section Methods.
Context `{Strings}.

(** [func (q *Questions) categoryExists(cat string) bool]; the nil
    slice has length 0, so the test of the length covers the test for
    nil. *)
Definition categoryExists (q : Questions) (cat : string) : bool :=
  let cat := ToLower cat in
  if decide (len (at_key q cat) < 1) then false else true.

(** [func (q *Questions) getRandomCategory() string]; [r] is the value
    of [rand.Int()]. *)
Definition getRandomCategory (q : Questions) (r : Z) : outcome string :=
  i ← rem r (len q.(Categories));
  Go.index q.(Categories) i.

(** [func (q *Questions) GetRandomQuestion(category string)], which
    returns a [*Question] and an [int]; [r1] is the value [rand.Int()]
    has in [getRandomCategory], [r2] the one it has for the index of the
    question. *)
Definition GetRandomQuestion (q : Questions) (category : string) (r1 r2 : Z)
    : outcome (option Ptr * Z) :=
  let pick (category : string) : outcome (option Ptr * Z) :=
    let category := ToLower category in
    qIndex ← rem r2 (len (at_key q category));
    p ← addr q category qIndex;
    Return (Some p, qIndex) in
  if decide (category = "") then
    category ← getRandomCategory q r1;
    pick category
  else if negb (categoryExists q category) then Return (None, 0)
  else pick category.

(** [func (q *Questions) GetQuestionById(id string) *Question] *)
Definition GetQuestionById (q : Questions) (id : string) : outcome (option Ptr) :=
  let questionSlice := Split id "|" in
  match questionSlice with
  | [category; indexS] =>
      let category := ToLower category in
      match Atoi indexS with
      | None => Return None
      | Some index =>
          if negb (categoryExists q category) then Return None
          else if decide (len (at_key q category) ≤ index) then Return None
          else p ← addr q category index; Return (Some p)
      end
  | _ => Return None
  end.

(** The way the data of the posts is laid out: a question is stored
    under the lower-case form of its category, and no category holds a
    bar. *)
Definition keyed_by_category (q : Questions) : Prop :=
  ∀ k l i question,
    q.(M) !! k = Some l → l !! i = Some question →
    ToLower question.(Category) = k ∧ Count question.(Category) "|" = 0%nat.

End Methods.

(** Two questions that are the same but for the order of their choices. *)
Definition reordered (a b : Question) : Prop :=
  a.(Text) = b.(Text) ∧ a.(Category) = b.(Category) ∧
  a.(Format) = b.(Format) ∧ a.(Answer) = b.(Answer) ∧
  match a.(Choices), b.(Choices) with
  | Some cs, Some cs' => cs ≡ₚ cs'
  | None, None => True
  | _, _ => False
  end.

(** A store just made, [new(Questions)] after [Init]. *)
Definition fresh : Questions := {| Categories := []; M := ∅ |}.

(** What [json.NewDecoder(r).Decode(&q.M)] finds in the reader.  A JSON
    object that maps categories to arrays of questions is decoded into
    the map: its entries replace the entries of the map with the same
    key, and the other entries of the map stay.  The JSON text [null]
    sets the map to nil, and is no error.  Anything else is an error,
    before which some entries may have been decoded. *)
Inductive decoding :=
  | Decoded (m : gmap string (list Question))
  | DecodedNull
  | DecodeError (partial : gmap string (list Question)).

(** [func (q *Questions) Load(r io.Reader) error]: the store after the
    call and whether the error is non-nil.  [keys] is the order in which
    [for key := range q.M] visits the keys of the map; the nil map has
    none to visit. *)
Definition Load (q : Questions) (d : decoding) (keys : list string)
    : Questions * bool :=
  match d with
  | DecodeError partial =>
      ({| Categories := q.(Categories); M := partial ∪ q.(M) |}, true)
  | DecodedNull =>
      ({| Categories := q.(Categories); M := ∅ |}, false)
  | Decoded m =>
      ({| Categories := q.(Categories) ++ keys; M := m ∪ q.(M) |}, false)
  end.

End Trivia.

(** ** The server module of the second post, with its error responses *)

Module Server.
Import Go.
Local Open Scope Z_scope.

Module GetTriviaRequest.
Record t := { Category : string }.
End GetTriviaRequest.

(** [Choices] is left out of the JSON when it is nil. *)
Module GetTriviaResponse.
Record t := {
  QuestionId : string;
  Question : string;
  Category : string;
  Format : string;
  Choices : option (gmap string string)
}.
End GetTriviaResponse.

Module GetGuessRequest.
Record t := { QuestionId : string; Guess : string }.
End GetGuessRequest.

Module GetGuessResponse.
Record t := { QuestionId : string; Correct : bool }.
End GetGuessResponse.

Module ErrorResponse.
Record t := {
  Error : bool;
  Data : gmap string string;
  Message : string
}.
End ErrorResponse.

(** What a handler writes with [e.JSON] or [e.JSONPretty]: the status
    code and the value that is encoded. *)
Inductive body :=
  | TriviaJSON (v : GetTriviaResponse.t)
  | GuessJSON (v : GetGuessResponse.t)
  | ErrorJSON (v : ErrorResponse.t).

Record response := {
  code : Z;
  payload : body
}.

(** [rand.Shuffle(len(cs), func(i, j int) { cs[i], cs[j] = cs[j], cs[i] })]:
    [swaps] are the calls that [rand.Shuffle] makes of the function. *)
Fixpoint Shuffle (swaps : list (Z * Z)) (cs : list string) : outcome (list string) :=
  match swaps with
  | [] => Return cs
  | (i, j) :: swaps' => cs' ← swap cs i j; Shuffle swaps' cs'
  end.

Section Handlers.
Context `{Strings}.

(** The end of [GetTrivia]: the response built from the question. *)
Definition triviaResponse (question : Trivia.Question) (qIndex : Z) : outcome response :=
  let cs := default [] question.(Trivia.Choices) in
  choices ←
    (if decide (question.(Trivia.Format) = "MultipleChoice") then
       a ← index cs 0; b ← index cs 1; c ← index cs 2; d ← index cs 3;
       Return (Some ({[ "A" := a; "B" := b; "C" := c; "D" := d ]} : gmap string string))
     else Return None);
  Return {| code := 200;
            payload := TriviaJSON {|
              GetTriviaResponse.QuestionId :=
                question.(Trivia.Category) +:+ "|" +:+ Itoa qIndex;
              GetTriviaResponse.Question := question.(Trivia.Text);
              GetTriviaResponse.Category := question.(Trivia.Category);
              GetTriviaResponse.Format := question.(Trivia.Format);
              GetTriviaResponse.Choices := choices |} |}.

(** [func (s *Server) GetTrivia(e echo.Context) error]: the response
    and the store of questions after the call.  [req] is the request as
    [e.Bind] fills it, [r1] and [r2] are the values of [rand.Int()]. *)
Definition GetTrivia (s : Trivia.Questions) (req : GetTriviaRequest.t)
    (r1 r2 : Z) (swaps : list (Z * Z)) : outcome (response * Trivia.Questions) :=
  '(question, qIndex) ← Trivia.GetRandomQuestion s req.(GetTriviaRequest.Category) r1 r2;
  match question with
  | None =>
      Return ({| code := 404;
                 payload := ErrorJSON {|
                   ErrorResponse.Error := true;
                   ErrorResponse.Data := {[ "category" := "category is invalid" ]};
                   ErrorResponse.Message := "" |} |}, s)
  | Some p =>
      q0 ← Trivia.load s p;
      if decide (q0.(Trivia.Format) = "MultipleChoice" ∧ q0.(Trivia.Choices) ≠ None) then
        cs' ← Shuffle swaps (default [] q0.(Trivia.Choices));
        let q1 := {| Trivia.Text := q0.(Trivia.Text);
                     Trivia.Category := q0.(Trivia.Category);
                     Trivia.Format := q0.(Trivia.Format);
                     Trivia.Choices := Some cs';
                     Trivia.Answer := q0.(Trivia.Answer) |} in
        let s1 := Trivia.store s p q1 in
        if decide (len cs' ≠ 4) then
          Return ({| code := 500;
                     payload := ErrorJSON {|
                       ErrorResponse.Error := true;
                       ErrorResponse.Data := ∅;
                       ErrorResponse.Message := "internal server error" |} |}, s1)
        else res ← triviaResponse q1 qIndex; Return (res, s1)
      else res ← triviaResponse q0 qIndex; Return (res, s)
  end.

(** [func (s *Server) GetGuess(e echo.Context) error] *)
Definition GetGuess (s : Trivia.Questions) (req : GetGuessRequest.t) : outcome response :=
  let errs : gmap string string := ∅ in
  let errs :=
    if decide (req.(GetGuessRequest.Guess) = "")
    then <["guess" := "required parameter missing"]> errs else errs in
  let errs :=
    if decide (req.(GetGuessRequest.QuestionId) = "")
    then <["question_id" := "required parameter missing"]> errs else errs in
  if decide (0 < Z.of_nat (size errs)) then
    Return {| code := 400;
              payload := ErrorJSON {|
                ErrorResponse.Error := true;
                ErrorResponse.Data := errs;
                ErrorResponse.Message := "" |} |}
  else
    question ← Trivia.GetQuestionById s req.(GetGuessRequest.QuestionId);
    match question with
    | None =>
        let errs := <["question_id" := "invalid or malformed"]> errs in
        Return {| code := 404;
                  payload := ErrorJSON {|
                    ErrorResponse.Error := true;
                    ErrorResponse.Data := errs;
                    ErrorResponse.Message := "" |} |}
    | Some p =>
        question ← Trivia.load s p;
        let correct := EqualFold question.(Trivia.Answer) req.(GetGuessRequest.Guess) in
        Return {| code := 200;
                  payload := GuessJSON {|
                    GetGuessResponse.QuestionId := req.(GetGuessRequest.QuestionId);
                    GetGuessResponse.Correct := correct |} |}
    end.

End Handlers.
End Server.


(** ** Package [strings] on ASCII text, and the data of the tests *)

Module AsciiStrings.

(** [strings.ToLower] and [strings.EqualFold] as they work on strings
    of ASCII characters: the letters [A] to [Z] go to [a] to [z]. *)
Definition lower (c : ascii) : ascii :=
  let n := nat_of_ascii c in
  if (65 <=? n)%nat && (n <=? 90)%nat then ascii_of_nat (n + 32) else c.

Fixpoint ToLower (s : string) : string :=
  match s with
  | EmptyString => EmptyString
  | String c s' => String (lower c) (ToLower s')
  end.

Definition EqualFold (s t : string) : bool :=
  bool_decide (ToLower s = ToLower t).

Definition strings : Go.Strings :=
  {| Go.ToLower := ToLower; Go.EqualFold := EqualFold |}.

End AsciiStrings.

Module TestData.
Import Trivia.

(** The question of [TestMain]. *)
Definition rome : Question := {|
  Text := "The ancient city of Rome was built on how many hills?";
  Format := "MultipleChoice";
  Category := "World History";
  Choices := Some ["Eight"; "Four"; "Nine"; "Seven"];
  Answer := "Seven"
|}.

(** The store that [TestMain] sets up. *)
Definition Q : Questions := {|
  Categories := ["world history"];
  M := {[ "world history" := [rome] ]}
|}.

(** The same question without its choices, and with three of them. *)
Definition rome_without_choices : Question := {|
  Text := "The ancient city of Rome was built on how many hills?";
  Format := "MultipleChoice";
  Category := "World History";
  Choices := None;
  Answer := "Seven"
|}.

Definition rome_with_three_choices : Question := {|
  Text := "The ancient city of Rome was built on how many hills?";
  Format := "MultipleChoice";
  Category := "World History";
  Choices := Some ["Eight"; "Four"; "Seven"];
  Answer := "Seven"
|}.

Definition store_of (question : Question) : Questions := {|
  Categories := ["world history"];
  M := {[ "world history" := [question] ]}
|}.

(** [expectQuestions] of [TestLoad]. *)
Definition expectQuestions : gmap string (list Question) :=
  {[ "world history" := [
       {| Text := "How many years did the 100 years war last?";
          Format := "MultipleChoice";
          Answer := "116";
          Category := "World History";
          Choices := Some ["116"; "87"; "12"; "205"] |};
       {| Text := "True or False: John Wilkes Booth assassinated Abraham Lincoln.";
          Format := "TrueFalse";
          Answer := "True";
          Category := "World History";
          Choices := None |} ];
     "geography" := [
       {| Text := "What is the capital city of Japan?";
          Format := "MultipleChoice";
          Answer := "Tokyo";
          Category := "Geography";
          Choices := Some ["Beijing"; "Seoul"; "Bangkok"; "Tokyo"] |};
       {| Text := "True or False: The Amazon Rainforest is located in Africa.";
          Format := "TrueFalse";
          Answer := "False";
          Category := "Geography";
          Choices := None |} ] ]}.

(** The store of [TestLoad] after [Load], with the categories in the
    order of [expectCategories]. *)
Definition qq : Questions :=
  (Load fresh (Decoded expectQuestions) ["world history"; "geography"]).1.

End TestData.


Example valid_url_https : Url.valid_url "https://github.com/gabehf" = true.
Proof. reflexivity. Qed.
Example valid_url_no_scheme : Url.valid_url "github.com/gabehf" = false.
Proof. reflexivity. Qed.
Example valid_url_no_host : Url.valid_url "https://" = false.
Proof. reflexivity. Qed.
Example valid_url_blank : Url.valid_url "https://git hub.com" = false.
Proof. reflexivity. Qed.
Example valid_url_digit_scheme : Url.valid_url "1ttp://x" = false.
Proof. reflexivity. Qed.

(** * Properties of the theme colour resolver *)

Section ResolverFacts.
Import JS ThemeColor.
Context {CR TR : Type}.
Implicit Types (theme : Theme CR TR) (σ : Store CR TR).
Implicit Types (tbl : object) (c tok key : string).

(** The value of a call is what the table answers at the primary colour. *)
Lemma call_value σ :
  (call σ).1 = get σ.(mod_mapVariants) σ.(mod_theme).(colors).(primary).
Proof. reflexivity. Qed.


(** An own property hides what is inherited. *)
Lemma get_own tbl key (v : value) : tbl.(own) !! key = Some v → get tbl key = v.
Proof. intros Hown. unfold get. simpl. by rewrite Hown. Qed.

Lemma lookup_chain_None (chain : list (gmap string value)) key :
  (∀ props, props ∈ chain → props !! key = None) →
  lookup_chain chain key = Undefined.
Proof.
  induction chain as [| props chain IH]; intros Hnone; simpl; [done |].
  rewrite (Hnone props) by apply list_elem_of_here.
  apply IH. intros props' Hin. apply Hnone. by apply list_elem_of_further.
Qed.




End ResolverFacts.

Section ResolverClaims.
Import JS ThemeColor.

Lemma spec_table_covers : covers spec_enumeration spec_table.
Proof.
  intros c ->%elem_of_singleton. by exists "text-blue-500".
Qed.



(** C2, as the claim puts it, fails: "constructor" is no key of the
    table and no member of the enumeration, and the lookup does not
    yield [undefined] for it but the function [Object], which the table
    inherits. *)
Lemma unmapped_identifier_inherited :
  ("constructor" ∉ spec_enumeration) ∧
  spec_table.(own) !! "constructor" = None ∧
  textThemeColorTag (theme_of "constructor") spec_table = Builtin "Object" ∧
  textThemeColorTag (theme_of "constructor") spec_table ≠ Undefined.
Proof.
  split; [by intros [=]%elem_of_singleton |].
  split; [reflexivity |]. split; [reflexivity | discriminate].
Qed.

(** C2, amended: when the configured primary colour is no key of the
    table and not the name of a property that the table inherits, the
    call completes with [undefined]: no token comes back, not a default
    one either, and the store is untouched. *)
Theorem unmapped_identifier_undefined {CR TR : Type} (σ : Store CR TR) :
  σ.(mod_mapVariants).(own) !! σ.(mod_theme).(colors).(primary) = None →
  (∀ props, props ∈ σ.(mod_mapVariants).(protos) →
            props !! σ.(mod_theme).(colors).(primary) = None) →
  call σ = (Undefined, σ) ∧
  ∀ tok, textThemeColorTag σ.(mod_theme) σ.(mod_mapVariants) ≠ Str tok.
Proof.
  intros Hown Hprotos.
  assert (Hget : textThemeColorTag σ.(mod_theme) σ.(mod_mapVariants) = Undefined).
  { unfold textThemeColorTag, get. apply lookup_chain_None.
    intros props [-> | Hin]%elem_of_cons; [exact Hown | by apply Hprotos]. }
  unfold call. rewrite Hget. split; [reflexivity | discriminate].
Qed.

Lemma unmapped_identifier_undefined_witness :
  call (spec_store "magenta") = (Undefined, spec_store "magenta") ∧
  ∀ tok, textThemeColorTag (theme_of "magenta") spec_table ≠ Str tok.
Proof.
  apply (unmapped_identifier_undefined (spec_store "magenta")).
  - reflexivity.
  - intros props ->%list_elem_of_singleton. reflexivity.
Defined.



(** C4: of the store, a call reads the primary colour identifier of the
    theme and the table, and nothing else.  For an identifier of an
    enumeration that the table covers it returns one style token, the
    entry of the table for that identifier, and so does a call in any
    store with the same identifier and table; it leaves the store
    unchanged. *)
Theorem resolver_one_identifier_one_token {CR TR : Type} (E : gset string)
    (σ σ' : Store CR TR) :
  covers E σ.(mod_mapVariants) →
  σ.(mod_theme).(colors).(primary) ∈ E →
  σ'.(mod_theme).(colors).(primary) = σ.(mod_theme).(colors).(primary) →
  σ'.(mod_mapVariants) = σ.(mod_mapVariants) →
  ∃ tok,
    σ.(mod_mapVariants).(own) !! σ.(mod_theme).(colors).(primary) = Some (Str tok) ∧
    (call σ).1 = Str tok ∧ (call σ').1 = Str tok ∧ (call σ).2 = σ.
Proof.
  intros Hcovers Hin Hc Htbl. destruct (Hcovers _ Hin) as [tok Htok].
  exists tok. rewrite !call_value, Hc, Htbl, (get_own _ _ _ Htok). by split_and!.
Qed.

Lemma resolver_one_identifier_one_token_witness :
  ∃ tok,
    spec_table.(own) !! "primary-blue" = Some (Str tok) ∧
    (call (blue_store false)).1 = Str tok ∧
    (call (blue_store true)).1 = Str tok ∧
    (call (blue_store false)).2 = blue_store false.
Proof.
  apply (resolver_one_identifier_one_token spec_enumeration
           (blue_store false) (blue_store true)).
  - exact spec_table_covers.
  - by apply elem_of_singleton.
  - reflexivity.
  - reflexivity.
Defined.

(** C5: when the table maps "primary-blue" to "text-blue-500" and the
    configured primary colour is "primary-blue", the resolver returns
    exactly "text-blue-500". *)
Theorem primary_blue_scenario {CR TR : Type} (theme : Theme CR TR) (tbl : object) :
  tbl.(own) !! "primary-blue" = Some (Str "text-blue-500") →
  theme.(colors).(primary) = "primary-blue" →
  textThemeColorTag theme tbl = Str "text-blue-500".
Proof.
  intros Hentry Hprimary. unfold textThemeColorTag. rewrite Hprimary.
  by apply get_own.
Qed.

Lemma primary_blue_scenario_witness :
  textThemeColorTag (theme_of "primary-blue") spec_table = Str "text-blue-500".
Proof.
  apply (primary_blue_scenario (theme_of "primary-blue") spec_table);
    reflexivity.
Defined.

End ResolverClaims.

(** * Properties of the site data *)

Section ProjectsFacts.
Import Projects.

(** C8: every project record of the list has a non-empty list of
    technology tags, each of them a non-empty text, and a non-empty title
    and link. *)
Theorem projects_well_formed (p : Project) :
  p ∈ projects →
  p.(techs) ≠ [] ∧ Forall (λ t, t ≠ "") p.(techs) ∧
  p.(title) ≠ "" ∧ p.(link) ≠ "".
Proof.
  unfold projects. rewrite !elem_of_cons, elem_of_nil.
  intros [-> | [-> | [-> | []]]]; cbn;
    (split; [discriminate |]); (split; [| split; discriminate]);
    repeat (constructor; [discriminate |]); constructor.
Qed.

Lemma projects_well_formed_witness :
  costin_coffee ∈ projects ∧
  costin_coffee.(techs) ≠ [] ∧ Forall (λ t, t ≠ "") costin_coffee.(techs) ∧
  costin_coffee.(title) ≠ "" ∧ costin_coffee.(link) ≠ "".
Proof.
  assert (Hin : costin_coffee ∈ projects)
    by (unfold projects, costin_coffee; rewrite !elem_of_cons; auto).
  split; [exact Hin | exact (projects_well_formed costin_coffee Hin)].
Defined.

End ProjectsFacts.

Section PresentationFacts.
Import Presentation.

(** The two revisions of the presentation record. *)
Lemma revisions_cases (pr : Presentation) :
  pr ∈ revisions →
  pr = PresentationA.presentation ∨ pr = PresentationB.presentation.
Proof.
  unfold revisions. rewrite !elem_of_cons, elem_of_nil. tauto.
Qed.

(** C9: in either revision of the profile record, every social link
    has a non-empty label and a link that is a syntactically valid URL,
    and the mail and the title of the record are non-empty. *)
Theorem presentation_well_formed (pr : Presentation) :
  pr ∈ revisions →
  pr.(mail) ≠ "" ∧ pr.(title) ≠ "" ∧
  ∀ s, s ∈ pr.(socials) → s.(label) ≠ "" ∧ Url.valid_url s.(link) = true.
Proof.
  intros [-> | ->]%revisions_cases; cbn;
    (split; [discriminate |]); (split; [discriminate |]);
    intros s ->%list_elem_of_singleton; cbn; (split; [discriminate | reflexivity]).
Qed.

Lemma presentation_well_formed_witness :
  PresentationB.presentation ∈ revisions ∧
  PresentationB.presentation.(mail) ≠ "" ∧
  PresentationB.presentation.(title) ≠ "" ∧
  ∀ s, s ∈ PresentationB.presentation.(socials) →
       s.(label) ≠ "" ∧ Url.valid_url s.(link) = true.
Proof.
  assert (Hin : PresentationB.presentation ∈ revisions)
    by (unfold revisions; rewrite !elem_of_cons; auto).
  split; [exact Hin | exact (presentation_well_formed _ Hin)].
Defined.

(** C10: the two revisions of the presentation record have the same mail,
    title and social links, neither has a profile image, and their
    descriptions differ: the second revision is the first one with
    another description.  No project record of the list sets
    [isComingSoon]. *)
Theorem revisions_differ_in_description_only :
  PresentationA.presentation.(mail) = PresentationB.presentation.(mail) ∧
  PresentationA.presentation.(title) = PresentationB.presentation.(title) ∧
  PresentationA.presentation.(socials) = PresentationB.presentation.(socials) ∧
  PresentationA.presentation.(profile) = None ∧
  PresentationB.presentation.(profile) = None ∧
  PresentationA.presentation.(description) ≠ PresentationB.presentation.(description) ∧
  with_description PresentationB.presentation.(description) PresentationA.presentation
    = PresentationB.presentation ∧
  Forall (λ p, p.(Projects.isComingSoon) = None) Projects.projects.
Proof.
  split_and!; try reflexivity.
  - apply (bool_decide_eq_false_1 _). vm_compute. reflexivity.
  - unfold Projects.projects. repeat constructor.
Qed.

End PresentationFacts.

Section BlogFacts.
Import Blog.

Lemma corpus_slugs_NoDup : NoDup (slug <$> corpus).
Proof.
  unfold corpus. cbn. apply NoDup_cons. split.
  - rewrite list_elem_of_singleton. discriminate.
  - apply NoDup_singleton.
Qed.

(** C6: the slugs of the blog documents are pairwise distinct: two
    documents at different places of the corpus have different slugs. *)
Theorem blog_slugs_pairwise_distinct (i j : nat) (d1 d2 : BlogDocument) :
  corpus !! i = Some d1 →
  corpus !! j = Some d2 →
  i ≠ j →
  d1.(slug) ≠ d2.(slug).
Proof.
  intros Hi Hj Hij Hslug. apply Hij.
  apply (NoDup_lookup (slug <$> corpus) i j d1.(slug) corpus_slugs_NoDup).
  - by rewrite list_lookup_fmap, Hi.
  - by rewrite list_lookup_fmap, Hj, Hslug.
Qed.

Lemma blog_slugs_pairwise_distinct_witness :
  creating_serverless_lambda_go.(slug) ≠ stateless_containerized_trivia_api_go.(slug).
Proof.
  apply (blog_slugs_pairwise_distinct 0 1); [reflexivity | reflexivity | lia].
Defined.

(** Selecting the published posts keeps a list all of whose posts are
    published as it is. *)
Lemma filterPublished_all (docs : list BlogDocument) :
  Forall (λ d, d.(isPublish) = true) docs → filterPublished docs = docs.
Proof.
  unfold filterPublished. induction 1 as [| d docs Hd _ IH].
  - reflexivity.
  - rewrite filter_cons_True by exact Hd. by rewrite IH.
Qed.

Lemma corpus_all_published : Forall (λ d, d.(isPublish) = true) corpus.
Proof. unfold corpus. repeat constructor. Qed.

(** C7: the two blog documents being loaded in whichever order, the
    selection of the published ones holds exactly the loaded documents
    whose [isPublish] flag is true, which are both documents, in some
    order. *)
Theorem filter_published_corpus (docs : list BlogDocument) :
  docs ≡ₚ corpus →
  (∀ d, d ∈ filterPublished docs ↔ d ∈ docs ∧ d.(isPublish) = true) ∧
  filterPublished docs ≡ₚ corpus.
Proof.
  intros Hperm. split.
  - intros d. unfold filterPublished. rewrite list_elem_of_filter. tauto.
  - rewrite filterPublished_all; [exact Hperm |].
    rewrite Hperm. exact corpus_all_published.
Qed.

Lemma filter_published_corpus_witness :
  reverse corpus ≡ₚ corpus ∧
  (∀ d, d ∈ filterPublished (reverse corpus) ↔
        d ∈ reverse corpus ∧ d.(isPublish) = true) ∧
  filterPublished (reverse corpus) ≡ₚ corpus.
Proof.
  assert (Hperm : reverse corpus ≡ₚ corpus) by apply reverse_Permutation.
  split; [exact Hperm | exact (filter_published_corpus (reverse corpus) Hperm)].
Defined.

End BlogFacts.

(** * The Lambda handler *)

Section LambdaFacts.
Import Go Lambda.
Local Open Scope Z_scope.

(** One turn of the loop. *)
Lemma GCF_step (a b : Z) : b ≠ 0 → GCF a b = GCF b (Z.rem a b).
Proof.
  intros Hb. rewrite GCF_equation_1. destruct (decide (b = 0)); [done | reflexivity].
Qed.

Lemma GCF_zero (a : Z) : GCF a 0 = a.
Proof. rewrite GCF_equation_1. reflexivity. Qed.

(** Up to its sign the result is the greatest common divisor. *)
Lemma GCF_abs (a b : Z) : Z.abs (GCF a b) = Z.gcd a b.
Proof.
  funelim (GCF a b).
  - subst b. by rewrite Z.gcd_0_r.
  - rewrite H, (Z.gcd_comm b), Z.gcd_rem by done. apply Z.gcd_comm.
Qed.

Lemma GCF_nonneg (a b : Z) : 0 ≤ a → 0 ≤ b → 0 ≤ GCF a b.
Proof.
  funelim (GCF a b); intros Ha Hb.
  - done.
  - apply H; [done |]. apply Z.rem_nonneg; [done | done].
Qed.

(** X1: for a request of two non-negative numbers the handler answers
    with their greatest common divisor and a nil error. *)
Theorem HandleRequests_gcd (req : Request) :
  0 ≤ req.(A) → 0 ≤ req.(B) →
  HandleRequests req = ({| Result := Z.gcd req.(A) req.(B) |}, None).
Proof.
  intros Ha Hb. unfold HandleRequests. do 2 f_equal.
  rewrite <- GCF_abs. symmetry. apply Z.abs_eq. by apply GCF_nonneg.
Qed.

Lemma HandleRequests_gcd_witness :
  HandleRequests {| A := 36; B := 48 |} = ({| Result := 12 |}, None).
Proof.
  apply (HandleRequests_gcd {| A := 36; B := 48 |}); simpl; lia.
Defined.

(** X2: the loop of [GCF] never leaves the range of [int]: for any two
    [int] the result is an [int], and its absolute value is the greatest
    common divisor of the arguments. *)
Theorem GCF_in_range (a b : Z) :
  is_int a → is_int b → is_int (GCF a b) ∧ Z.abs (GCF a b) = Z.gcd a b.
Proof.
  intros Ha Hb. split; [| apply GCF_abs].
  revert Ha Hb. funelim (GCF a b); intros Ha Hb.
  - done.
  - apply H; [done |].
    pose proof (Z.rem_bound_abs a b n). unfold is_int, int_min, int_max in *. lia.
Qed.

Lemma GCF_in_range_witness :
  is_int (GCF (- 2 ^ 63) (2 ^ 63 - 1)) ∧
  Z.abs (GCF (- 2 ^ 63) (2 ^ 63 - 1)) = Z.gcd (- 2 ^ 63) (2 ^ 63 - 1).
Proof.
  apply (GCF_in_range (- 2 ^ 63) (2 ^ 63 - 1));
    unfold is_int, int_min, int_max; lia.
Defined.

(** Negating both arguments negates the result. *)
Lemma GCF_opp (a b : Z) : GCF (- a) (- b) = - GCF a b.
Proof.
  funelim (GCF a b).
  - subst b. change (- 0) with 0. by rewrite GCF_zero.
  - rewrite GCF_step by lia. rewrite Z.rem_opp_opp by done. exact H.
Qed.

(** X3: [GCF] does not normalise the sign: for two numbers that are
    negative or zero the result is the negated greatest common divisor,
    a negative number unless both are zero. *)
Theorem GCF_negative_arguments (a b : Z) :
  a ≤ 0 → b ≤ 0 → GCF a b = - Z.gcd a b.
Proof.
  intros Ha Hb.
  rewrite <- (Z.opp_involutive a), <- (Z.opp_involutive b) at 1.
  rewrite GCF_opp. f_equal.
  rewrite <- Z.gcd_opp_l, <- Z.gcd_opp_r, <- GCF_abs.
  symmetry. apply Z.abs_eq. apply GCF_nonneg; lia.
Qed.

Lemma GCF_negative_arguments_witness : GCF (- 36) (- 48) = - 12.
Proof. apply (GCF_negative_arguments (- 36) (- 48)); lia. Defined.

End LambdaFacts.

(** * Strings and numbers in Go *)

Section GoFacts.
Import Go.
Local Open Scope Z_scope.

Lemma bind_Return {A B} (f : A → outcome B) (a : A) : (Return a ≫= f) = f a.
Proof. reflexivity. Qed.

Lemma index_Return {A} (l : list A) (i : Z) (x : A) :
  index l i = Return x ↔ 0 ≤ i ∧ l !! Z.to_nat i = Some x.
Proof.
  unfold index. destruct (decide (i < 0)) as [Hi | Hi].
  - split; [discriminate | lia].
  - destruct (l !! Z.to_nat i) as [y |]; split.
    + intros [= ->]. split; [lia | done].
    + by intros [_ [= ->]].
    + discriminate.
    + by intros [_ ?].
Qed.

Lemma index_in_range {A} (l : list A) (i : Z) :
  0 ≤ i < len l → ∃ x, index l i = Return x ∧ l !! Z.to_nat i = Some x.
Proof.
  unfold len. intros Hi.
  destruct (lookup_lt_is_Some_2 l (Z.to_nat i)) as [x Hx]; [lia |].
  exists x. split; [| done]. apply index_Return. split; [lia | done].
Qed.

Lemma index_out_of_range {A} (l : list A) (i : Z) :
  i < 0 ∨ len l ≤ i → index l i = Panicked IndexOutOfRange.
Proof.
  unfold index, len. intros Hi. destruct (decide (i < 0)); [done |].
  rewrite lookup_ge_None_2; [done | lia].
Qed.

Lemma Count_app (s t : string) (sep : ascii) :
  Count (s +:+ t) sep = (Count s sep + Count t sep)%nat.
Proof. induction s as [| c s IH]; simpl; [done |]. rewrite IH. lia. Qed.

Lemma Split_length (s : string) (sep : ascii) :
  length (Split s sep) = S (Count s sep).
Proof.
  induction s as [| c s IH]; simpl; [done |].
  destruct (Ascii.eqb c sep); simpl.
  - by rewrite IH.
  - destruct (Split s sep); simpl in *; lia.
Qed.

Lemma Split_none (s : string) (sep : ascii) :
  Count s sep = 0%nat → Split s sep = [s].
Proof.
  induction s as [| c s IH]; simpl; [done |].
  destruct (Ascii.eqb c sep); [done |]. intros Hs. by rewrite IH.
Qed.

Lemma Split_app (s t : string) (sep : ascii) :
  Count s sep = 0%nat → Split (s +:+ String sep t) sep = s :: Split t sep.
Proof.
  induction s as [| c s IH]; simpl.
  - intros _. by rewrite Ascii.eqb_refl.
  - destruct (Ascii.eqb c sep); [done |]. intros Hs. by rewrite IH.
Qed.

(** A string splits in two exactly when it holds the separator once. *)
Lemma Split_two (s : string) (sep : ascii) (a b : string) :
  Split s sep = [a; b] ↔
  s = a +:+ String sep b ∧ Count a sep = 0%nat ∧ Count b sep = 0%nat.
Proof.
  split.
  - revert a. induction s as [| c s IH]; intros a; simpl; [done |].
    destruct (Ascii.eqb c sep) eqn:Hc.
    + apply Ascii.eqb_eq in Hc as ->. intros [= <- Hs].
      pose proof (Split_length s sep) as Hlen. rewrite Hs in Hlen.
      simpl in Hlen. injection Hlen as Hcount.
      rewrite Split_none in Hs by done. injection Hs as ->. done.
    + destruct (Split s sep) as [| piece pieces] eqn:Hs; [done |].
      intros [= <- ->]. destruct (IH piece eq_refl) as (-> & Ha & Hb).
      simpl. by rewrite Hc.
  - intros (-> & Ha & Hb). rewrite Split_app by done. by rewrite Split_none.
Qed.

Lemma digits_of_uint_acc (d : Decimal.uint) (acc : positive) :
  digits (NilEmpty.string_of_uint d) (Z.pos acc) = Some (Z.pos (Pos.of_uint_acc d acc)).
Proof.
  revert acc. induction d; intros acc; simpl; [done | ..];
    unfold digit; simpl; rewrite <- IHd; f_equal;
    match goal with
    | |- context [Z.of_nat (nat_of_ascii ?c)] =>
        let v := eval vm_compute in (Z.of_nat (nat_of_ascii c)) in
        change (Z.of_nat (nat_of_ascii c)) with v
    end; lia.
Qed.

Lemma digits_of_uint (d : Decimal.uint) :
  digits (NilEmpty.string_of_uint d) 0 = Some (Z.of_N (Pos.of_uint d)).
Proof.
  induction d; simpl; [done | exact IHd | ..];
    unfold digit; simpl; apply (digits_of_uint_acc d).
Qed.

Lemma Count_of_uint (d : Decimal.uint) (sep : ascii) :
  digit sep = None → Count (NilEmpty.string_of_uint d) sep = 0%nat.
Proof.
  intros Hsep. induction d; cbn [NilEmpty.string_of_uint Count]; [done | ..];
    (match goal with
     | |- context [Ascii.eqb ?c sep] => destruct (Ascii.eqb c sep) eqn:Hc
     end;
     [apply Ascii.eqb_eq in Hc; subst sep; vm_compute in Hsep; discriminate Hsep
     | exact IHd]).
Qed.

(** The decimal text of a number has no bar. *)
Lemma Count_Itoa (n : Z) : Count (Itoa n) "|" = 0%nat.
Proof.
  unfold Itoa. destruct n; simpl; [done | |]; by rewrite Count_of_uint.
Qed.

Lemma Atoi_of_uint (d : Decimal.uint) :
  d ≠ Decimal.Nil →
  is_int (Z.of_N (Pos.of_uint d)) →
  Atoi (NilEmpty.string_of_uint d) = Some (Z.of_N (Pos.of_uint d)).
Proof.
  intros Hd Hrange. pose proof (digits_of_uint d) as Hdigits.
  destruct d; [done | ..]; simpl in *; rewrite Hdigits; simpl;
    by rewrite decide_True.
Qed.

(** [Atoi] reads back what [Itoa] writes. *)
Lemma Atoi_Itoa (n : Z) : is_int n → Atoi (Itoa n) = Some n.
Proof.
  intros Hn. unfold Itoa. destruct n as [| p | p]; simpl.
  - reflexivity.
  - rewrite Atoi_of_uint.
    + by rewrite Unsigned.of_to.
    + apply Unsigned.to_uint_nonnil.
    + by rewrite Unsigned.of_to.
  - pose proof (digits_of_uint (Pos.to_uint p)) as Hdigits.
    rewrite Unsigned.of_to in Hdigits.
    pose proof (Unsigned.to_uint_nonnil p) as Hnil.
    destruct (Pos.to_uint p); [done | ..]; simpl in *; rewrite Hdigits; simpl;
      by rewrite decide_True.
Qed.

End GoFacts.

(** * The trivia module *)

Section TriviaFacts.
Import Go Trivia.
Local Open Scope Z_scope.
Context `{Strings}.
Hypothesis ToLower_idemp : ∀ s, ToLower (ToLower s) = ToLower s.

Lemma categoryExists_true (q : Questions) (cat : string) :
  categoryExists q cat = true ↔ at_key q (ToLower cat) ≠ [].
Proof.
  unfold categoryExists, len. generalize (at_key q (ToLower cat)). intros l.
  destruct (decide (Z.of_nat (length l) < 1)) as [Hl | Hl];
    destruct l; simpl in *; split; try done; lia.
Qed.

Lemma categoryExists_false (q : Questions) (cat : string) :
  categoryExists q cat = false ↔ at_key q (ToLower cat) = [].
Proof.
  rewrite <- not_true_iff_false, categoryExists_true.
  destruct (at_key q (ToLower cat)) as [| x l].
  - split; [done |]. intros _ Hx. by apply Hx.
  - split; [| done]. intros Hx. destruct Hx. done.
Qed.

Lemma addr_Return (q : Questions) (cat : string) (i : Z) (p : Ptr) :
  addr q cat i = Return p ↔
  p = {| at_category := cat; at_index := i |} ∧ 0 ≤ i < len (at_key q cat).
Proof.
  unfold addr. destruct (index (at_key q cat) i) as [x | pn] eqn:Hx; simpl.
  - apply index_Return in Hx as [Hi Hx]. apply lookup_lt_Some in Hx.
    unfold len. split; [intros [= <-]; split; [done | lia] | by intros [-> _]].
  - split; [discriminate |]. intros [_ Hi].
    destruct (index_in_range (at_key q cat) i Hi) as (x & Hx' & _). congruence.
Qed.

Lemma addr_in_range (q : Questions) (cat : string) (i : Z) :
  0 ≤ i < len (at_key q cat) →
  addr q cat i = Return {| at_category := cat; at_index := i |}.
Proof. intros Hi. by apply addr_Return. Qed.

(** What [GetQuestionById] does with an identifier in two parts. *)
Lemma GetQuestionById_parts (q : Questions) (cat idx : string) :
  Count cat "|" = 0%nat → Count idx "|" = 0%nat →
  GetQuestionById q (cat +:+ "|" +:+ idx) =
  match Atoi idx with
  | None => Return None
  | Some i =>
      if decide (at_key q (ToLower cat) = []) then Return None
      else if decide (len (at_key q (ToLower cat)) ≤ i) then Return None
      else p ← addr q (ToLower cat) i; Return (Some p)
  end.
Proof.
  intros Hcat Hidx. unfold GetQuestionById.
  change (cat +:+ "|" +:+ idx) with (cat +:+ String "|" idx).
  rewrite (proj2 (Split_two _ _ cat idx)) by done.
  destruct (Atoi idx) as [i |]; [| done].
  destruct (categoryExists q (ToLower cat)) eqn:Hex; simpl.
  - apply categoryExists_true in Hex. rewrite ToLower_idemp in Hex.
    by destruct (decide (at_key q (ToLower cat) = [])).
  - apply categoryExists_false in Hex. rewrite ToLower_idemp in Hex.
    by destruct (decide (at_key q (ToLower cat) = [])).
Qed.

Lemma digits_no_sep (s : string) (acc v : Z) (sep : ascii) :
  digit sep = None → digits s acc = Some v → Count s sep = 0%nat.
Proof.
  intros Hsep. revert acc. induction s as [| c s IH]; intros acc; simpl; [done |].
  destruct (digit c) as [d |] eqn:Hd; simpl; [| done].
  intros Hs. rewrite (IH _ Hs).
  destruct (Ascii.eqb c sep) eqn:Hc; [| done].
  apply Ascii.eqb_eq in Hc. congruence.
Qed.

(** A string that [Atoi] accepts has no bar. *)
Lemma Atoi_no_bar (s : string) (v : Z) : Atoi s = Some v → Count s "|" = 0%nat.
Proof.
  assert (Hbar : digit "|" = None) by reflexivity.
  destruct s as [| c rest]; [done |]. unfold Atoi.
  destruct (Ascii.eqb c "-") eqn:Hminus;
    [| destruct (Ascii.eqb c "+") eqn:Hplus].
  - apply Ascii.eqb_eq in Hminus as ->.
    destruct rest as [| c' rest']; [done |].
    destruct (digits (String c' rest') 0) as [n |] eqn:Hn; simpl; [| done].
    intros _. exact (digits_no_sep _ _ _ _ Hbar Hn).
  - apply Ascii.eqb_eq in Hplus as ->.
    destruct rest as [| c' rest']; [done |].
    destruct (digits (String c' rest') 0) as [n |] eqn:Hn; simpl; [| done].
    intros _. exact (digits_no_sep _ _ _ _ Hbar Hn).
  - destruct (digits (String c rest) 0) as [n |] eqn:Hn; simpl; [| done].
    intros _. exact (digits_no_sep _ _ _ _ Hbar Hn).
Qed.

(** X4: an identifier that does not hold the bar exactly once is
    malformed: [GetQuestionById] returns nil for it, whatever the store. *)
Theorem GetQuestionById_malformed (q : Questions) (id : string) :
  Count id "|" ≠ 1%nat → GetQuestionById q id = Return None.
Proof.
  intros Hcount. unfold GetQuestionById.
  pose proof (Split_length id "|") as Hlen.
  destruct (Split id "|") as [| a [| b [| c l]]]; try done.
  simpl in Hlen. lia.
Qed.

(** X5: [GetQuestionById] returns a question exactly for an identifier
    [cat|idx] where [cat] has no bar, [idx] is read by [Atoi] as a number
    that is an index into the questions stored under the lower-case form
    of [cat]; what it returns is the address of the question at that
    index. *)
Theorem GetQuestionById_found (q : Questions) (id : string) (p : Ptr) :
  GetQuestionById q id = Return (Some p) ↔
  ∃ cat idx,
    id = cat +:+ "|" +:+ idx ∧ Count cat "|" = 0%nat ∧
    Atoi idx = Some p.(at_index) ∧ p.(at_category) = ToLower cat ∧
    0 ≤ p.(at_index) < len (at_key q (ToLower cat)).
Proof.
  split.
  - intros Hp.
    destruct (decide (Count id "|" = 1%nat)) as [Hcount | Hcount];
      [| by rewrite GetQuestionById_malformed in Hp].
    pose proof (Split_length id "|") as Hlen. rewrite Hcount in Hlen.
    destruct (Split id "|") as [| cat [| idx [| c l]]] eqn:Hsplit; try done.
    apply Split_two in Hsplit as (-> & Hcat & Hidx).
    change (cat +:+ String "|" idx) with (cat +:+ "|" +:+ idx) in Hp.
    rewrite GetQuestionById_parts in Hp by done.
    exists cat, idx. destruct (Atoi idx) as [i |]; [| done].
    repeat case_decide; try done.
    destruct (addr q (ToLower cat) i) as [p' | pn] eqn:Hp'; [| done].
    injection Hp as ->. apply addr_Return in Hp' as [-> Hi]. done.
  - intros (cat & idx & -> & Hcat & Hidx & Hpc & Hi).
    rewrite GetQuestionById_parts by eauto using Atoi_no_bar.
    rewrite Hidx. rewrite decide_False.
    2:{ intros Hnil. rewrite Hnil in Hi. unfold len in Hi. simpl in Hi. lia. }
    rewrite decide_False by lia. rewrite addr_in_range by done. simpl.
    destruct p; simpl in *; by subst.
Qed.

(** X6: [GetQuestionById] panics, with an index out of range, exactly
    for an identifier [cat|idx] whose category has questions and whose
    index [Atoi] reads as a negative number. *)
Theorem GetQuestionById_panics (q : Questions) (id : string) (pn : panic) :
  GetQuestionById q id = Panicked pn ↔
  pn = IndexOutOfRange ∧
  ∃ cat idx i,
    id = cat +:+ "|" +:+ idx ∧ Count cat "|" = 0%nat ∧
    Atoi idx = Some i ∧ i < 0 ∧ at_key q (ToLower cat) ≠ [].
Proof.
  split.
  - intros Hp.
    destruct (decide (Count id "|" = 1%nat)) as [Hcount | Hcount];
      [| by rewrite GetQuestionById_malformed in Hp].
    pose proof (Split_length id "|") as Hlen. rewrite Hcount in Hlen.
    destruct (Split id "|") as [| cat [| idx [| c l]]] eqn:Hsplit; try done.
    apply Split_two in Hsplit as (-> & Hcat & Hidx).
    change (cat +:+ String "|" idx) with (cat +:+ "|" +:+ idx) in Hp.
    rewrite GetQuestionById_parts in Hp by done.
    destruct (Atoi idx) as [i |] eqn:Hi; [| done].
    repeat case_decide; try done.
    destruct (decide (0 ≤ i)) as [Hpos | Hneg].
    + rewrite addr_in_range in Hp by lia. done.
    + unfold addr in Hp. rewrite index_out_of_range in Hp by lia.
      injection Hp as <-. split; [done |]. exists cat, idx, i.
      repeat split; try done. lia.
  - intros (-> & cat & idx & i & -> & Hcat & Hidx & Hi & Hex).
    rewrite GetQuestionById_parts by eauto using Atoi_no_bar.
    rewrite Hidx, decide_False by done.
    rewrite decide_False by (unfold len; lia).
    unfold addr. by rewrite index_out_of_range by lia.
Qed.

(** X7: identifiers are read up to the case of the category and up to
    the spelling of the index: two identifiers whose categories have the
    same lower-case form and whose indices [Atoi] reads alike get the
    same answer from [GetQuestionById]. *)
Theorem GetQuestionById_same_question (q : Questions) (cat cat' idx idx' : string) :
  Count cat "|" = 0%nat → Count cat' "|" = 0%nat →
  Count idx "|" = 0%nat → Count idx' "|" = 0%nat →
  ToLower cat = ToLower cat' → Atoi idx = Atoi idx' →
  GetQuestionById q (cat +:+ "|" +:+ idx) = GetQuestionById q (cat' +:+ "|" +:+ idx').
Proof.
  intros Hc Hc' Hi Hi' Hlower Hatoi.
  rewrite !GetQuestionById_parts by done. by rewrite Hlower, Hatoi.
Qed.

Lemma rem_Return (a b v : Z) : rem a b = Return v ↔ b ≠ 0 ∧ v = Z.rem a b.
Proof.
  unfold rem. destruct (decide (b = 0)); split; try done.
  - by intros [].
  - by intros [= <-].
  - by intros [_ ->].
Qed.

Lemma rem_zero (a : Z) : rem a 0 = Panicked DivideByZero.
Proof. reflexivity. Qed.

Lemma rem_nonzero (a b : Z) : b ≠ 0 → rem a b = Return (Z.rem a b).
Proof. intros Hb. unfold rem. by rewrite decide_False. Qed.

(** The draw of a question among those of a category. *)
Lemma pick_question (q : Questions) (c : string) (r2 : Z) :
  (qIndex ← rem r2 (len (at_key q (ToLower c)));
   p ← addr q (ToLower c) qIndex;
   Return (Some p, qIndex)) =
  if decide (at_key q (ToLower c) = []) then Panicked DivideByZero
  else if decide (r2 < 0 ∧ Z.rem r2 (len (at_key q (ToLower c))) ≠ 0)
  then Panicked IndexOutOfRange
  else Return (Some {| at_category := ToLower c;
                       at_index := Z.rem r2 (len (at_key q (ToLower c))) |},
               Z.rem r2 (len (at_key q (ToLower c)))).
Proof.
  unfold rem. set (l := at_key q (ToLower c)).
  destruct (decide (l = [])) as [Hl | Hl].
  - rewrite decide_True; [done |]. by rewrite Hl.
  - assert (Hn : 0 < len l) by (unfold len; destruct l; [done | simpl; lia]).
    rewrite decide_False by lia. rewrite bind_Return.
    destruct (decide (r2 < 0 ∧ Z.rem r2 (len l) ≠ 0)) as [[Hr Hrem] | Hok].
    + unfold addr. fold l. rewrite index_out_of_range; [done |].
      left. pose proof (Z.rem_nonpos r2 (len l)). lia.
    + rewrite addr_in_range; [done |]. fold l.
      destruct (decide (0 ≤ r2)) as [Hr | Hr].
      * apply Z.rem_bound_pos; lia.
      * lia.
Qed.

(** X8: for a named category [GetRandomQuestion] never panics: it
    returns nil and 0 when no question is stored under the lower-case
    form of the category, and otherwise the address and the index of the
    question at [rand.Int()] modulo their number. *)
Theorem GetRandomQuestion_named (q : Questions) (category : string) (r1 r2 : Z) :
  category ≠ "" → 0 ≤ r2 →
  (at_key q (ToLower category) = [] →
   GetRandomQuestion q category r1 r2 = Return (None, 0)) ∧
  (at_key q (ToLower category) ≠ [] →
   ∃ i question,
     i = Z.rem r2 (len (at_key q (ToLower category))) ∧
     at_key q (ToLower category) !! Z.to_nat i = Some question ∧
     GetRandomQuestion q category r1 r2 =
       Return (Some {| at_category := ToLower category; at_index := i |}, i)).
Proof.
  intros Hcat Hr2. unfold GetRandomQuestion. rewrite decide_False by done.
  split; intros Hl.
  - apply categoryExists_false in Hl. by rewrite Hl.
  - pose proof Hl as Hex. apply categoryExists_true in Hex. rewrite Hex. simpl negb.
    cbv iota. rewrite pick_question.
    rewrite decide_False by done. rewrite decide_False by lia.
    set (i := Z.rem r2 _).
    assert (Hi : 0 ≤ i < len (at_key q (ToLower category))).
    { unfold i. apply Z.rem_bound_pos; [done |].
      unfold len. destruct (at_key q (ToLower category)); [done | simpl; lia]. }
    destruct (index_in_range _ _ Hi) as (question & _ & Hq).
    by exists i, question.
Qed.

(** X9: without a category, [GetRandomQuestion] panics exactly when it
    divides by zero: the list of categories is empty, or no question is
    stored under the lower-case form of the category it draws. *)
Theorem GetRandomQuestion_any_panics (q : Questions) (r1 r2 : Z) (pn : panic) :
  0 ≤ r1 → 0 ≤ r2 →
  GetRandomQuestion q "" r1 r2 = Panicked pn ↔
  pn = DivideByZero ∧
  (q.(Categories) = [] ∨
   ∃ c, q.(Categories) !! Z.to_nat (Z.rem r1 (len q.(Categories))) = Some c ∧
        at_key q (ToLower c) = []).
Proof.
  intros Hr1 Hr2. unfold GetRandomQuestion. rewrite decide_True by done.
  unfold getRandomCategory.
  destruct (decide (q.(Categories) = [])) as [Hnil | Hnil].
  - rewrite Hnil. change (len []) with 0. rewrite rem_zero. simpl.
    split; [intros [= <-]; auto | by intros [-> _]].
  - assert (Hlen : 0 < len q.(Categories)).
    { unfold len. destruct q.(Categories); [done | simpl; lia]. }
    rewrite rem_nonzero by lia. rewrite bind_Return.
    assert (Hi : 0 ≤ Z.rem r1 (len q.(Categories)) < len q.(Categories))
      by (apply Z.rem_bound_pos; lia).
    destruct (index_in_range _ _ Hi) as (c & -> & Hc). rewrite bind_Return.
    rewrite pick_question. rewrite (decide_False (P := _ ∧ _)) by lia.
    destruct (decide (at_key q (ToLower c) = [])) as [Hl | Hl].
    + split; [intros [= <-]; split; [done |]; right; by exists c | by intros [-> _]].
    + split; [done |]. intros [_ [Hnil' | (c' & Hc' & Hl')]]; congruence.
Qed.

(** What a successful draw returns. *)
Lemma GetRandomQuestion_Return (q : Questions) (category : string) (r1 r2 : Z)
    (p : Ptr) (i : Z) :
  GetRandomQuestion q category r1 r2 = Return (Some p, i) →
  ∃ c, p = {| at_category := ToLower c; at_index := i |} ∧
       0 ≤ i < len (at_key q (ToLower c)) ∧ i ≤ Z.max 0 r2.
Proof.
  assert (Hpick : ∀ c,
    (qIndex ← rem r2 (len (at_key q (ToLower c)));
     p ← addr q (ToLower c) qIndex; Return (Some p, qIndex)) = Return (Some p, i) →
    p = {| at_category := ToLower c; at_index := i |} ∧
    0 ≤ i < len (at_key q (ToLower c)) ∧ i ≤ Z.max 0 r2).
  { intros c. destruct (rem r2 _) as [v |] eqn:Hv; [| done]. simpl.
    destruct (addr q (ToLower c) v) as [p' |] eqn:Hp'; [| done]. simpl.
    intros [= -> ->]. apply addr_Return in Hp' as [-> Hi].
    apply rem_Return in Hv as [Hlen ->]. split; [done |]. split; [lia |].
    destruct (decide (0 ≤ r2)) as [Hr | Hr].
    - pose proof (Z.rem_le r2 (len (at_key q (ToLower c)))). lia.
    - pose proof (Z.rem_nonpos r2 (len (at_key q (ToLower c)))). lia. }
  unfold GetRandomQuestion. case_decide.
  - destruct (getRandomCategory q r1) as [c |]; [| done]. simpl.
    intros Hc. exists c. by apply Hpick.
  - destruct (categoryExists q category); simpl; [| done].
    intros Hc. exists category. by apply Hpick.
Qed.

(** X10: a question stored under a key that is not in lower case is
    never served: no address that [GetQuestionById] or
    [GetRandomQuestion] returns is under such a key. *)
Theorem mixed_case_keys_unreachable (q : Questions) (id category : string)
    (r1 r2 i : Z) (p : Ptr) (k : string) :
  GetQuestionById q id = Return (Some p) ∨
  GetRandomQuestion q category r1 r2 = Return (Some p, i) →
  ToLower k ≠ k →
  p.(at_category) ≠ k.
Proof.
  intros Hserved Hk <-. apply Hk.
  destruct Hserved as [Hid | Hrand].
  - apply GetQuestionById_found in Hid as (cat & idx & _ & _ & _ & -> & _).
    apply ToLower_idemp.
  - apply GetRandomQuestion_Return in Hrand as (c & -> & _). apply ToLower_idemp.
Qed.

(** X11: the identifier of a question that was drawn leads back to it.
    When the store is laid out by category, the question that
    [GetRandomQuestion] returns with index [i] is the one that
    [GetQuestionById] returns for its category, a bar and [Itoa(i)]. *)
Theorem question_id_round_trip (q : Questions) (category : string) (r1 r2 : Z)
    (p : Ptr) (i : Z) :
  keyed_by_category q → is_int r2 →
  GetRandomQuestion q category r1 r2 = Return (Some p, i) →
  ∃ question,
    load q p = Return question ∧
    GetQuestionById q (question.(Category) +:+ "|" +:+ Itoa i) = Return (Some p).
Proof.
  intros Hkeyed Hr2 (c & -> & Hi & Habs)%GetRandomQuestion_Return.
  destruct (index_in_range _ _ Hi) as (question & Hload & Hq).
  exists question. split; [exact Hload |].
  unfold at_key in Hq. destruct (q.(M) !! ToLower c) as [l |] eqn:Hl; [| done].
  destruct (Hkeyed _ _ _ _ Hl Hq) as [Hcat Hbar].
  apply GetQuestionById_found. exists question.(Category), (Itoa i).
  cbn [at_index at_category]. rewrite Hcat. split_and!; try done; try lia.
  apply Atoi_Itoa. unfold is_int, int_min, int_max in *. lia.
Qed.

End TriviaFacts.

(** * The handlers of the server *)

Section ShuffleFacts.
Import Go Server.
Local Open Scope Z_scope.
Context {A : Type}.
Implicit Types (l : list A) (x y : A).

Lemma insert_Permutation l (i : nat) x y :
  l !! i = Some x → <[i := y]> l ≡ₚ y :: delete i l.
Proof.
  revert i. induction l as [| z l IH]; intros [| i]; simpl; try done.
  intros Hi. rewrite (IH _ Hi). apply Permutation_swap.
Qed.

(** Exchanging two elements of a list permutes it. *)
Lemma swap_Permutation l (i j : Z) l' : swap l i j = Return l' → l' ≡ₚ l.
Proof.
  unfold swap. destruct (index l i) as [x |] eqn:Hx; [| done].
  destruct (index l j) as [y |] eqn:Hy; [| done]. simpl. intros [= <-].
  apply index_Return in Hx as [_ Hx]. apply index_Return in Hy as [_ Hy].
  destruct (decide (Z.to_nat i = Z.to_nat j)) as [Hij | Hij].
  - rewrite Hij in *. assert (x = y) as -> by congruence.
    by rewrite list_insert_insert_eq, list_insert_id.
  - assert (Hy' : <[Z.to_nat i := y]> l !! Z.to_nat j = Some y)
      by by rewrite list_lookup_insert_ne.
    rewrite (insert_Permutation _ _ _ x Hy').
    pose proof (delete_Permutation _ _ _ Hy') as H1.
    rewrite (insert_Permutation _ _ _ y Hx) in H1 at 1.
    apply Permutation_cons_inv in H1. rewrite <- H1.
    symmetry. by apply delete_Permutation.
Qed.

End ShuffleFacts.

Section ServerFacts.
Import Go Trivia Server.
Local Open Scope Z_scope.
Context `{Strings}.
Hypothesis ToLower_idemp : ∀ s, ToLower (ToLower s) = ToLower s.

(** Whatever calls [rand.Shuffle] makes, the choices are permuted. *)
Lemma Shuffle_Permutation (swaps : list (Z * Z)) (cs cs' : list string) :
  Shuffle swaps cs = Return cs' → cs' ≡ₚ cs.
Proof.
  revert cs. induction swaps as [| [i j] swaps IH]; intros cs; simpl.
  - by intros [= <-].
  - destruct (swap cs i j) as [cs1 |] eqn:Hswap; [| done]. simpl.
    intros Hrest. rewrite (IH _ Hrest). by apply swap_Permutation in Hswap.
Qed.

Lemma reordered_refl (a : Question) : reordered a a.
Proof. unfold reordered. by destruct a.(Choices). Qed.

Lemma at_key_store (s : Questions) (p : Ptr) (v : Question) (k : string) :
  at_key (store s p v) k =
  if decide (k = p.(at_category))
  then <[Z.to_nat p.(at_index) := v]> (at_key s p.(at_category))
  else at_key s k.
Proof.
  unfold at_key at 1, store. simpl. case_decide as Hk.
  - subst k. by rewrite lookup_insert_eq.
  - by rewrite lookup_insert_ne.
Qed.

(** The question with its choices in another order. *)
Lemma store_reordered (s : Questions) (p : Ptr) (q0 q1 : Question) (k : string) :
  load s p = Return q0 → reordered q0 q1 →
  Forall2 reordered (at_key s k) (at_key (store s p q1) k).
Proof.
  intros Hload Hre. apply index_Return in Hload as [_ Hq0].
  rewrite at_key_store. case_decide as Hk.
  - subst k.
    rewrite <- (list_insert_id (at_key s p.(at_category)) _ _ Hq0) at 1.
    apply Forall2_insert; [| done].
    apply Forall_Forall2_diag, Forall_forall. intros. apply reordered_refl.
  - apply Forall_Forall2_diag, Forall_forall. intros. apply reordered_refl.
Qed.

Lemma store_dom (s : Questions) (p : Ptr) (q0 q1 : Question) :
  load s p = Return q0 → dom (store s p q1).(M) = dom s.(M).
Proof.
  intros Hload. apply index_Return in Hload as [_ Hq0].
  unfold store. simpl. rewrite dom_insert_L.
  assert (Hin : p.(at_category) ∈ dom s.(M));
    [| by apply subseteq_union_1_L, singleton_subseteq_l].
  apply elem_of_dom. unfold at_key in Hq0.
  destruct (s.(M) !! p.(at_category)); [done | by destruct (Z.to_nat _)].
Qed.

(** The response that ends [GetTrivia]. *)
Lemma triviaResponse_Return (question : Question) (qIndex : Z) (res : response) :
  triviaResponse question qIndex = Return res →
  ∃ choices,
    res = {| code := 200;
             payload := TriviaJSON {|
               GetTriviaResponse.QuestionId :=
                 question.(Category) +:+ "|" +:+ Itoa qIndex;
               GetTriviaResponse.Question := question.(Text);
               GetTriviaResponse.Category := question.(Category);
               GetTriviaResponse.Format := question.(Format);
               GetTriviaResponse.Choices := choices |} |} ∧
    if decide (question.(Format) = "MultipleChoice") then
      ∃ a b c d rest,
        question.(Choices) = Some (a :: b :: c :: d :: rest) ∧
        choices = Some {[ "A" := a; "B" := b; "C" := c; "D" := d ]}
    else choices = None.
Proof.
  unfold triviaResponse. case_decide as Hformat.
  - destruct question.(Choices) as [[| a [| b [| c [| d rest]]]] |]; try done.
    simpl. intros [= <-]. eexists. split; [done |]. by exists a, b, c, d, rest.
  - simpl. intros [= <-]. by eexists.
Qed.

(** The ways in which [GetTrivia] returns. *)
Lemma GetTrivia_Return (s : Questions) (req : GetTriviaRequest.t) (r1 r2 : Z)
    (swaps : list (Z * Z)) (res : response) (s' : Questions) :
  GetTrivia s req r1 r2 swaps = Return (res, s') →
  (∃ i, GetRandomQuestion s req.(GetTriviaRequest.Category) r1 r2 = Return (None, i) ∧
        s' = s ∧
        res = {| code := 404;
                 payload := ErrorJSON {|
                   ErrorResponse.Error := true;
                   ErrorResponse.Data := {[ "category" := "category is invalid" ]};
                   ErrorResponse.Message := "" |} |}) ∨
  (∃ p i q0 q1,
     GetRandomQuestion s req.(GetTriviaRequest.Category) r1 r2 = Return (Some p, i) ∧
     load s p = Return q0 ∧ reordered q0 q1 ∧
     (s' = s ∧ q1 = q0 ∧
        ¬ (q0.(Format) = "MultipleChoice" ∧ q0.(Choices) ≠ None) ∧
        triviaResponse q1 i = Return res ∨
      s' = store s p q1 ∧ q0.(Format) = "MultipleChoice" ∧
        (∃ cs cs', q0.(Choices) = Some cs ∧ q1.(Choices) = Some cs' ∧
                   Shuffle swaps cs = Return cs' ∧
          (length cs ≠ 4%nat ∧
             res = {| code := 500;
                      payload := ErrorJSON {|
                        ErrorResponse.Error := true;
                        ErrorResponse.Data := ∅;
                        ErrorResponse.Message := "internal server error" |} |} ∨
           length cs = 4%nat ∧ triviaResponse q1 i = Return res)))).
Proof.
  unfold GetTrivia.
  destruct (GetRandomQuestion _ _ _ _) as [[[p |] i] |] eqn:Hrand; simpl; [| | done].
  - destruct (load s p) as [q0 |] eqn:Hload; simpl; [| done].
    case_decide as Hmc.
    + destruct Hmc as [Hformat Hchoices].
      destruct q0.(Choices) as [cs |] eqn:Hcs; [| done]. simpl.
      destruct (Shuffle swaps cs) as [cs' |] eqn:Hshuffle; simpl; [| done].
      pose proof (Shuffle_Permutation _ _ _ Hshuffle) as Hperm.
      pose proof (Permutation_length Hperm) as Hlength.
      set (q1 := {| Text := _ |}).
      assert (Hre : reordered q0 q1).
      { unfold reordered. simpl. rewrite Hcs. by split_and!. }
      case_decide as Hlen.
      * intros [= <- <-]. right. exists p, i, q0, q1.
        split_and!; [done | done | done |]. right.
        split_and!; [done | done |]. exists cs, cs'.
        split_and!; [done | done | done |]. left. split; [| done].
        unfold len in Hlen. lia.
      * destruct (triviaResponse q1 i) as [res1 |] eqn:Hres; simpl; [| done].
        intros [= <- <-]. right. exists p, i, q0, q1.
        split_and!; [done | done | done |]. right.
        split_and!; [done | done |]. exists cs, cs'.
        split_and!; [done | done | done |]. right. split; [| done].
        unfold len in Hlen. lia.
    + destruct (triviaResponse q0 i) as [res0 |] eqn:Hres; simpl; [| done].
      intros [= <- <-]. right. exists p, i, q0, q0.
      split_and!; [done | done | apply reordered_refl |]. by left.
  - intros [= <- <-]. left. by exists i.
Qed.

(** X12: [GetTrivia] leaves the questions where they are.  After a call
    that returns, the categories and the keys of the store are as
    before, and under each key the questions are the same, at the same
    indices, but for the order of the choices. *)
Theorem GetTrivia_keeps_questions (s : Questions) (req : GetTriviaRequest.t)
    (r1 r2 : Z) (swaps : list (Z * Z)) (res : response) (s' : Questions) :
  GetTrivia s req r1 r2 swaps = Return (res, s') →
  s'.(Categories) = s.(Categories) ∧ dom s'.(M) = dom s.(M) ∧
  ∀ k, Forall2 reordered (at_key s k) (at_key s' k).
Proof.
  intros Hret. apply GetTrivia_Return in Hret
    as [(i & _ & -> & _) | (p & i & q0 & q1 & _ & Hload & Hre & Hs')].
  - split_and!; [done | done |]. intros k. apply Forall_Forall2_diag, Forall_forall.
    intros. apply reordered_refl.
  - destruct Hs' as [(-> & _) | (-> & _)].
    + split_and!; [done | done |]. intros k. apply Forall_Forall2_diag, Forall_forall.
      intros. apply reordered_refl.
    + split; [done |]. split; [by eapply store_dom |].
      intros k. by eapply store_reordered.
Qed.

Lemma append_sep_nonempty (s t : string) (c : ascii) : s +:+ String c t ≠ "".
Proof. by destruct s. Qed.

(** [GetGuess] when both parameters are there. *)
Lemma GetGuess_present (s : Questions) (id guess : string) :
  id ≠ "" → guess ≠ "" →
  GetGuess s {| GetGuessRequest.QuestionId := id; GetGuessRequest.Guess := guess |} =
  question ← GetQuestionById s id;
  match question with
  | None =>
      Return {| code := 404;
                payload := ErrorJSON {|
                  ErrorResponse.Error := true;
                  ErrorResponse.Data := {[ "question_id" := "invalid or malformed" ]};
                  ErrorResponse.Message := "" |} |}
  | Some p =>
      question ← load s p;
      Return {| code := 200;
                payload := GuessJSON {|
                  GetGuessResponse.QuestionId := id;
                  GetGuessResponse.Correct := EqualFold question.(Answer) guess |} |}
  end.
Proof.
  intros Hid Hguess. unfold GetGuess. simpl.
  rewrite (decide_False (P := guess = "")) by done.
  rewrite (decide_False (P := id = "")) by done.
  rewrite map_size_empty. rewrite decide_False by lia. reflexivity.
Qed.

(** X13: the identifier that [GetTrivia] hands out is good for a guess.
    When the store is laid out by category and [GetTrivia] answers with
    status 200, a call of [GetGuess] on the store it leaves, with the
    identifier of the response and a guess, answers with status 200, the
    same identifier, and the verdict of [EqualFold] on the answer of the
    question that was asked. *)
Theorem GetTrivia_then_GetGuess (s : Questions) (req : GetTriviaRequest.t)
    (r1 r2 : Z) (swaps : list (Z * Z)) (res : response) (s' : Questions)
    (guess : string) :
  keyed_by_category s → is_int r2 →
  GetTrivia s req r1 r2 swaps = Return (res, s') →
  res.(code) = 200 → guess ≠ "" →
  ∃ v p question,
    res.(payload) = TriviaJSON v ∧
    GetQuestionById s v.(GetTriviaResponse.QuestionId) = Return (Some p) ∧
    load s p = Return question ∧
    v.(GetTriviaResponse.Question) = question.(Text) ∧
    GetGuess s' {| GetGuessRequest.QuestionId := v.(GetTriviaResponse.QuestionId);
                   GetGuessRequest.Guess := guess |} =
    Return {| code := 200;
              payload := GuessJSON {|
                GetGuessResponse.QuestionId := v.(GetTriviaResponse.QuestionId);
                GetGuessResponse.Correct := EqualFold question.(Answer) guess |} |}.
Proof.
  intros Hkeyed Hr2 Hret Hcode Hguess.
  pose proof (GetTrivia_keeps_questions _ _ _ _ _ _ _ Hret) as (_ & _ & Hsame).
  apply GetTrivia_Return in Hret
    as [(i & _ & _ & ->) | (p & i & q0 & q1 & Hrand & Hload & Hre & Hs')]; [done |].
  assert (Hres : triviaResponse q1 i = Return res).
  { destruct Hs' as [(_ & _ & _ & Hres) | (_ & _ & cs & cs' & _ & _ & _ & Hres)];
      [done |]. destruct Hres as [[_ ->] | [_ Hres]]; done. }
  apply triviaResponse_Return in Hres as (choices & -> & _).
  destruct Hre as (Htext & Hcat & _ & Hanswer & _).
  destruct (question_id_round_trip ToLower_idemp s _ r1 r2 p i Hkeyed Hr2 Hrand)
    as (question & Hload' & Hid).
  assert (question = q0) as -> by congruence.
  eexists _, p, q0. split; [reflexivity |]. simpl. rewrite <- Hcat, <- Htext.
  split_and!; [done | done | done |].
  rewrite GetGuess_present by (done || apply append_sep_nonempty).
  assert (Hid' : GetQuestionById s' (q0.(Category) +:+ "|" +:+ Itoa i) = Return (Some p)).
  { apply (GetQuestionById_found ToLower_idemp) in Hid
      as (cat & idx & Heq & Hbar & Hatoi & Hpc & Hrange).
    apply (GetQuestionById_found ToLower_idemp). exists cat, idx.
    split_and!; try done; try lia.
    unfold len in *. rewrite <- (Forall2_length _ _ _ (Hsame (ToLower cat))). lia. }
  rewrite Hid'. simpl.
  apply index_Return in Hload as [Hi Hq0]. unfold load.
  destruct (Forall2_lookup_l _ _ _ _ _ (Hsame p.(at_category)) Hq0)
    as (q' & Hq' & Hre').
  rewrite (proj2 (index_Return _ _ q')) by done. simpl.
  destruct Hre' as (_ & _ & _ & -> & _). done.
Qed.

(** X14: what [GetTrivia] puts in a response of status 200 is the
    question that was drawn: its text, category and format, and as
    identifier its category, a bar and its index.  For a question of
    format MultipleChoice the choices [A] to [D] are the four stored
    choices in some order; for another format there are none. *)
Theorem GetTrivia_response (s : Questions) (req : GetTriviaRequest.t)
    (r1 r2 : Z) (swaps : list (Z * Z)) (res : response) (s' : Questions)
    (v : GetTriviaResponse.t) :
  GetTrivia s req r1 r2 swaps = Return (res, s') →
  res.(payload) = TriviaJSON v →
  ∃ p i question,
    GetRandomQuestion s req.(GetTriviaRequest.Category) r1 r2 = Return (Some p, i) ∧
    load s p = Return question ∧ res.(code) = 200 ∧
    v.(GetTriviaResponse.QuestionId) = question.(Category) +:+ "|" +:+ Itoa i ∧
    v.(GetTriviaResponse.Question) = question.(Text) ∧
    v.(GetTriviaResponse.Category) = question.(Category) ∧
    v.(GetTriviaResponse.Format) = question.(Format) ∧
    if decide (question.(Format) = "MultipleChoice") then
      ∃ a b c d cs,
        v.(GetTriviaResponse.Choices) =
          Some {[ "A" := a; "B" := b; "C" := c; "D" := d ]} ∧
        question.(Choices) = Some cs ∧ [a; b; c; d] ≡ₚ cs
    else v.(GetTriviaResponse.Choices) = None.
Proof.
  intros Hret Hpayload.
  apply GetTrivia_Return in Hret
    as [(i & _ & _ & ->) | (p & i & q0 & q1 & Hrand & Hload & Hre & Hs')]; [done |].
  exists p, i, q0. split; [done |]. split; [done |].
  destruct Hre as (Htext & Hcat & Hformat & _ & _).
  destruct Hs' as [(_ & -> & Hmc & Hres) | (_ & Hmc & cs & cs' & Hcs & Hcs' & Hsh & Hres)].
  - apply triviaResponse_Return in Hres as (choices & -> & Hchoices).
    injection Hpayload as <-. simpl. split_and!; try done.
    case_decide as Hf; [| done].
    destruct Hchoices as (a & b & c & d & rest & Hq0 & _).
    destruct Hmc. split; [done | by rewrite Hq0].
  - destruct Hres as [[_ ->] | [Hlen Hres]]; [done |].
    apply triviaResponse_Return in Hres as (choices & -> & Hchoices).
    injection Hpayload as <-. simpl. rewrite <- Hcat, <- Htext, <- Hformat.
    split_and!; try done.
    rewrite decide_True by done. rewrite decide_True in Hchoices by congruence.
    destruct Hchoices as (a & b & c & d & rest & Hq1 & ->).
    rewrite Hcs' in Hq1. injection Hq1 as ->.
    apply Shuffle_Permutation in Hsh.
    assert (rest = []) as ->.
    { apply Permutation_length in Hsh. rewrite Hlen in Hsh.
      destruct rest; [done | simpl in Hsh; lia]. }
    by exists a, b, c, d, cs.
Qed.

Lemma swap_in_range (cs : list string) (i j : Z) :
  0 ≤ i < len cs → 0 ≤ j < len cs →
  ∃ cs', swap cs i j = Return cs' ∧ length cs' = length cs.
Proof.
  intros Hi Hj. unfold swap.
  destruct (index_in_range cs i Hi) as (x & -> & _).
  destruct (index_in_range cs j Hj) as (y & -> & _). simpl.
  eexists. split; [done |]. by rewrite !length_insert.
Qed.

(** The calls that [rand.Shuffle(n, f)] makes of [f] are at indices
    below [n]; with such calls the shuffle of the choices returns. *)
Lemma Shuffle_in_range (swaps : list (Z * Z)) (cs : list string) :
  Forall (λ ij, 0 ≤ ij.1 < len cs ∧ 0 ≤ ij.2 < len cs) swaps →
  ∃ cs', Shuffle swaps cs = Return cs' ∧ length cs' = length cs.
Proof.
  revert cs. induction swaps as [| [i j] swaps IH]; intros cs Hswaps; simpl.
  - by exists cs.
  - apply Forall_cons in Hswaps as [[Hi Hj] Hswaps]. simpl in Hi, Hj.
    destruct (swap_in_range cs i j Hi Hj) as (cs1 & -> & Hlen). simpl.
    destruct (IH cs1) as (cs' & -> & Hlen').
    { unfold len in *. by rewrite Hlen. }
    exists cs'. split; [done | congruence].
Qed.

(** X15: a question of format MultipleChoice without choices, as one
    gets from a JSON entry without the key [choices], makes [GetTrivia]
    panic with an index out of range: the shuffle is skipped for the nil
    slice, and the response then reads its first element. *)
Theorem GetTrivia_nil_choices_panics (s : Questions) (req : GetTriviaRequest.t)
    (r1 r2 : Z) (swaps : list (Z * Z)) (p : Ptr) (i : Z) (question : Question) :
  GetRandomQuestion s req.(GetTriviaRequest.Category) r1 r2 = Return (Some p, i) →
  load s p = Return question →
  question.(Format) = "MultipleChoice" → question.(Choices) = None →
  GetTrivia s req r1 r2 swaps = Panicked IndexOutOfRange.
Proof.
  intros Hrand Hload Hformat Hchoices. unfold GetTrivia.
  rewrite Hrand. simpl. rewrite Hload. simpl.
  rewrite decide_False by (intros [_ Hne]; done).
  unfold triviaResponse. rewrite decide_True by done. by rewrite Hchoices.
Qed.

(** X16: a question of format MultipleChoice whose choices are not four
    gets status 500 with the message "internal server error" and no
    data; the choices have been shuffled in the store all the same. *)
Theorem GetTrivia_wrong_number_of_choices (s : Questions) (req : GetTriviaRequest.t)
    (r1 r2 : Z) (swaps : list (Z * Z)) (p : Ptr) (i : Z) (question : Question)
    (cs : list string) :
  GetRandomQuestion s req.(GetTriviaRequest.Category) r1 r2 = Return (Some p, i) →
  load s p = Return question →
  question.(Format) = "MultipleChoice" → question.(Choices) = Some cs →
  length cs ≠ 4%nat →
  Forall (λ ij, 0 ≤ ij.1 < len cs ∧ 0 ≤ ij.2 < len cs) swaps →
  ∃ cs' s',
    Shuffle swaps cs = Return cs' ∧
    at_key s' p.(at_category) !! Z.to_nat p.(at_index) =
      Some {| Text := question.(Text); Category := question.(Category);
              Format := question.(Format); Choices := Some cs';
              Answer := question.(Answer) |} ∧
    GetTrivia s req r1 r2 swaps =
      Return ({| code := 500;
                 payload := ErrorJSON {|
                   ErrorResponse.Error := true;
                   ErrorResponse.Data := ∅;
                   ErrorResponse.Message := "internal server error" |} |}, s').
Proof.
  intros Hrand Hload Hformat Hchoices Hlen Hswaps.
  destruct (Shuffle_in_range swaps cs Hswaps) as (cs' & Hsh & Hlen').
  exists cs'. eexists. split; [done |]. unfold GetTrivia.
  rewrite Hrand. simpl. rewrite Hload. simpl.
  rewrite decide_True by (by rewrite Hchoices). rewrite Hchoices. simpl.
  rewrite Hsh. simpl. rewrite decide_True by (unfold len; lia).
  split; [| reflexivity].
  rewrite at_key_store, decide_True by done.
  apply index_Return in Hload as [_ Hq]. apply lookup_lt_Some in Hq.
  by rewrite list_lookup_insert_eq.
Qed.

(** X17: a guess with a parameter missing gets status 400, whatever the
    store holds: the data of the error names the parameters that are
    empty, each with "required parameter missing", and nothing else. *)
Theorem GetGuess_missing_parameters (s : Questions) (req : GetGuessRequest.t) :
  req.(GetGuessRequest.Guess) = "" ∨ req.(GetGuessRequest.QuestionId) = "" →
  ∃ data,
    GetGuess s req =
      Return {| code := 400;
                payload := ErrorJSON {|
                  ErrorResponse.Error := true;
                  ErrorResponse.Data := data;
                  ErrorResponse.Message := "" |} |} ∧
    ∀ k, data !! k =
         if decide ((k = "guess" ∧ req.(GetGuessRequest.Guess) = "") ∨
                    (k = "question_id" ∧ req.(GetGuessRequest.QuestionId) = ""))
         then Some "required parameter missing" else None.
Proof.
  intros Hmissing. unfold GetGuess.
  set (errs := if decide (req.(GetGuessRequest.QuestionId) = "") then _ else _).
  assert (Hlookup : ∀ k, errs !! k =
      if decide ((k = "guess" ∧ req.(GetGuessRequest.Guess) = "") ∨
                 (k = "question_id" ∧ req.(GetGuessRequest.QuestionId) = ""))
      then Some "required parameter missing" else None).
  { intros k. unfold errs.
    destruct (decide (req.(GetGuessRequest.QuestionId) = "")) as [Hid | Hid];
      destruct (decide (req.(GetGuessRequest.Guess) = "")) as [Hg | Hg];
      rewrite ?lookup_insert, ?lookup_empty; repeat case_decide;
      simplify_eq; try done; exfalso; intuition congruence. }
  exists errs. split; [| exact Hlookup].
  rewrite decide_True; [done |].
  assert (Hne : errs ≠ ∅).
  2:{ apply map_size_non_empty_iff in Hne. lia. }
  intros Hempty. destruct Hmissing as [Hg | Hid].
  - specialize (Hlookup "guess"). rewrite Hempty, lookup_empty in Hlookup.
    rewrite decide_True in Hlookup by auto. done.
  - specialize (Hlookup "question_id"). rewrite Hempty, lookup_empty in Hlookup.
    rewrite decide_True in Hlookup by auto. done.
Qed.

(** X18: a guess for an identifier that does not hold the bar exactly
    once gets status 404, with "invalid or malformed" for [question_id]
    as the only data. *)
Theorem GetGuess_malformed_id (s : Questions) (id guess : string) :
  id ≠ "" → guess ≠ "" → Count id "|" ≠ 1%nat →
  GetGuess s {| GetGuessRequest.QuestionId := id; GetGuessRequest.Guess := guess |} =
  Return {| code := 404;
            payload := ErrorJSON {|
              ErrorResponse.Error := true;
              ErrorResponse.Data := {[ "question_id" := "invalid or malformed" ]};
              ErrorResponse.Message := "" |} |}.
Proof.
  intros Hid Hguess Hcount. rewrite GetGuess_present by done.
  by rewrite GetQuestionById_malformed.
Qed.

(** X19: [GetGuess] panics only on a negative index: exactly when the
    guess is not empty and the identifier is [cat|idx] with questions
    stored for [cat] and [idx] read by [Atoi] as a negative number. *)
Theorem GetGuess_panics (s : Questions) (req : GetGuessRequest.t) (pn : panic) :
  GetGuess s req = Panicked pn ↔
  pn = IndexOutOfRange ∧ req.(GetGuessRequest.Guess) ≠ "" ∧
  ∃ cat idx i,
    req.(GetGuessRequest.QuestionId) = cat +:+ "|" +:+ idx ∧
    Count cat "|" = 0%nat ∧ Atoi idx = Some i ∧ i < 0 ∧
    at_key s (ToLower cat) ≠ [].
Proof.
  destruct req as [id guess]. simpl.
  destruct (decide (guess = "")) as [Hg | Hg].
  { split; [| by intros (_ & ? & _)].
    intros Hp. destruct (GetGuess_missing_parameters s
      {| GetGuessRequest.QuestionId := id; GetGuessRequest.Guess := guess |})
      as (data & Hret & _); [by left |]. congruence. }
  destruct (decide (id = "")) as [Hid | Hid].
  { split.
    - intros Hp. destruct (GetGuess_missing_parameters s
        {| GetGuessRequest.QuestionId := id; GetGuessRequest.Guess := guess |})
        as (data & Hret & _); [by right |]. congruence.
    - intros (_ & _ & cat & idx & i & Heq & _).
      exfalso. apply (append_sep_nonempty cat idx "|").
      change (cat +:+ String "|" idx) with (cat +:+ "|" +:+ idx).
      by rewrite <- Heq. }
  rewrite GetGuess_present by done. split.
  - intros Hp. destruct (GetQuestionById s id) as [[p |] | pn'] eqn:Hq; simpl in Hp.
    + apply (GetQuestionById_found ToLower_idemp) in Hq
        as (cat & idx & _ & _ & _ & Hpc & Hrange).
      unfold load in Hp. rewrite Hpc in Hp.
      destruct (index_in_range _ _ Hrange) as (question & Hq & _).
      by rewrite Hq in Hp.
    + done.
    + injection Hp as ->.
      apply (GetQuestionById_panics ToLower_idemp) in Hq as [-> Hex]. done.
  - intros (-> & _ & Hex).
    assert (Hq : GetQuestionById s id = Panicked IndexOutOfRange)
      by by apply (GetQuestionById_panics ToLower_idemp).
    by rewrite Hq.
Qed.

End ServerFacts.

(** * Loading the questions *)

Section LoadFacts.
Import Go Trivia.
Local Open Scope Z_scope.
Context `{Strings}.

(** X20: the first [Load] into a new store, when the decoding succeeds,
    installs the decoded map and makes the keys of the map the
    categories, each of them once; it returns a nil error. *)
Theorem Load_new_store (m : gmap string (list Question)) (keys : list string) :
  keys ≡ₚ elements (dom m) →
  (Load fresh (Decoded m) keys).2 = false ∧
  (Load fresh (Decoded m) keys).1.(M) = m ∧
  NoDup (Load fresh (Decoded m) keys).1.(Categories) ∧
  ∀ c, c ∈ (Load fresh (Decoded m) keys).1.(Categories) ↔ is_Some (m !! c).
Proof.
  intros Hkeys. simpl. split_and!.
  - done.
  - apply (right_id_L ∅ (∪)).
  - rewrite Hkeys. apply NoDup_elements.
  - intros c. rewrite Hkeys, elem_of_elements. apply elem_of_dom.
Qed.


(** X22: after the first [Load] of a map that is not empty, whose keys
    are in lower case and whose lists of questions are not empty,
    [GetRandomQuestion] without a category always returns a question of
    the map. *)
Theorem Load_then_GetRandomQuestion (m : gmap string (list Question))
    (keys : list string) (r1 r2 : Z) :
  keys ≡ₚ elements (dom m) →
  m ≠ ∅ →
  (∀ k l, m !! k = Some l → ToLower k = k ∧ l ≠ []) →
  0 ≤ r1 → 0 ≤ r2 →
  ∃ p i l question,
    GetRandomQuestion (Load fresh (Decoded m) keys).1 "" r1 r2 = Return (Some p, i) ∧
    p.(at_index) = i ∧
    m !! p.(at_category) = Some l ∧ l !! Z.to_nat i = Some question.
Proof.
  intros Hkeys Hm Hwf Hr1 Hr2.
  destruct (Load_new_store m keys Hkeys) as (_ & HM & _ & Hcats).
  set (q := (Load fresh (Decoded m) keys).1) in *.
  assert (Hne : q.(Categories) ≠ []).
  { intros Hnil. apply Hm, map_empty. intros k.
    apply eq_None_not_Some. rewrite <- Hcats, Hnil. apply not_elem_of_nil. }
  assert (Hlen : 0 < len q.(Categories)).
  { unfold len. destruct q.(Categories); [done | simpl; lia]. }
  unfold GetRandomQuestion. rewrite decide_True by done. unfold getRandomCategory.
  rewrite rem_nonzero by lia. rewrite bind_Return.
  assert (Hi : 0 ≤ Z.rem r1 (len q.(Categories)) < len q.(Categories))
    by (apply Z.rem_bound_pos; lia).
  destruct (index_in_range _ _ Hi) as (c & -> & Hc). rewrite bind_Return.
  apply list_elem_of_lookup_2, Hcats in Hc as [l Hl].
  destruct (Hwf _ _ Hl) as [Hlower Hl'].
  assert (Hat : at_key q (ToLower c) = l).
  { unfold at_key. by rewrite Hlower, HM, Hl. }
  rewrite pick_question, Hat.
  rewrite decide_False by done. rewrite decide_False by lia.
  assert (Hj : 0 ≤ Z.rem r2 (len l) < len l).
  { apply Z.rem_bound_pos; [done |]. unfold len. destruct l; [done | simpl; lia]. }
  destruct (index_in_range _ _ Hj) as (question & _ & Hq).
  eexists _, _, l, question. split; [reflexivity |]. simpl.
  by rewrite Hlower.
Qed.

End LoadFacts.

(** * The theorems at the data of the tests *)

Section Instances.
Import Go Trivia Server TestData.
Local Open Scope Z_scope.
#[local] Existing Instance AsciiStrings.strings.

Lemma ascii_lower_idemp (c : ascii) :
  AsciiStrings.lower (AsciiStrings.lower c) = AsciiStrings.lower c.
Proof. destruct c as [[] [] [] [] [] [] [] []]; reflexivity. Qed.

(** On ASCII text [ToLower] changes nothing in a string in lower case. *)
Lemma ascii_ToLower_idemp (s : string) : ToLower (ToLower s) = ToLower s.
Proof.
  simpl. induction s as [| c s IH]; simpl; [done |].
  by rewrite ascii_lower_idemp, IH.
Qed.

Lemma keyed_by_category_Forall (q : Questions) :
  map_Forall (λ k l, Forall (λ question,
    ToLower question.(Category) = k ∧ Count question.(Category) "|" = 0%nat) l)
    q.(M) →
  keyed_by_category q.
Proof.
  intros Hall k l i question Hl Hq.
  apply (Forall_lookup_1 _ _ _ _ (Hall _ _ Hl) Hq).
Qed.

Lemma qq_keyed_by_category : keyed_by_category qq.
Proof.
  apply keyed_by_category_Forall. apply (bool_decide_unpack _). by vm_compute.
Qed.

Lemma Q_keyed_by_category : keyed_by_category Q.
Proof.
  apply keyed_by_category_Forall. apply (bool_decide_unpack _). by vm_compute.
Qed.

Lemma GetQuestionById_malformed_witness :
  Count "hey" "|" ≠ 1%nat ∧ GetQuestionById Q "hey" = Return None.
Proof.
  assert (Hcount : Count "hey" "|" ≠ 1%nat) by (vm_compute; lia).
  split; [exact Hcount | exact (GetQuestionById_malformed Q "hey" Hcount)].
Defined.

Lemma GetQuestionById_found_witness :
  GetQuestionById Q "world History|0" =
    Return (Some {| at_category := "world history"; at_index := 0 |}) ↔
  ∃ cat idx,
    "world History|0" = cat +:+ "|" +:+ idx ∧ Count cat "|" = 0%nat ∧
    Atoi idx = Some 0 ∧ "world history" = ToLower cat ∧
    0 ≤ 0 < len (at_key Q (ToLower cat)).
Proof.
  exact (GetQuestionById_found ascii_ToLower_idemp Q "world History|0"
           {| at_category := "world history"; at_index := 0 |}).
Defined.

Lemma GetQuestionById_panics_witness :
  GetQuestionById Q "world history|-1" = Panicked IndexOutOfRange ↔
  IndexOutOfRange = IndexOutOfRange ∧
  ∃ cat idx i,
    "world history|-1" = cat +:+ "|" +:+ idx ∧ Count cat "|" = 0%nat ∧
    Atoi idx = Some i ∧ i < 0 ∧ at_key Q (ToLower cat) ≠ [].
Proof.
  exact (GetQuestionById_panics ascii_ToLower_idemp Q "world history|-1"
           IndexOutOfRange).
Defined.

Lemma GetQuestionById_same_question_witness :
  GetQuestionById Q ("World History" +:+ "|" +:+ "0") =
  GetQuestionById Q ("world history" +:+ "|" +:+ "+00").
Proof.
  apply (GetQuestionById_same_question ascii_ToLower_idemp Q
           "World History" "world history" "0" "+00"); reflexivity.
Defined.

Lemma GetRandomQuestion_named_witness :
  (at_key qq (ToLower "Geography") = [] →
   GetRandomQuestion qq "Geography" 5 7 = Return (None, 0)) ∧
  (at_key qq (ToLower "Geography") ≠ [] →
   ∃ i question,
     i = Z.rem 7 (len (at_key qq (ToLower "Geography"))) ∧
     at_key qq (ToLower "Geography") !! Z.to_nat i = Some question ∧
     GetRandomQuestion qq "Geography" 5 7 =
       Return (Some {| at_category := ToLower "Geography"; at_index := i |}, i)).
Proof.
  apply (GetRandomQuestion_named qq "Geography" 5 7); [done | lia].
Defined.

Lemma GetRandomQuestion_any_panics_witness :
  GetRandomQuestion fresh "" 5 7 = Panicked DivideByZero ↔
  DivideByZero = DivideByZero ∧
  (fresh.(Categories) = [] ∨
   ∃ c, fresh.(Categories) !! Z.to_nat (Z.rem 5 (len fresh.(Categories))) = Some c ∧
        at_key fresh (ToLower c) = []).
Proof.
  apply (GetRandomQuestion_any_panics fresh 5 7 DivideByZero); lia.
Defined.

Lemma mixed_case_keys_unreachable_witness :
  {| at_category := "world history"; at_index := 0 |}.(at_category) ≠ "World History".
Proof.
  apply (mixed_case_keys_unreachable ascii_ToLower_idemp Q "world History|0" ""
           0 0 0 {| at_category := "world history"; at_index := 0 |} "World History").
  - left. reflexivity.
  - discriminate.
Defined.

Lemma question_id_round_trip_witness :
  ∃ question,
    load qq {| at_category := "geography"; at_index := 1 |} = Return question ∧
    GetQuestionById qq (question.(Category) +:+ "|" +:+ Itoa 1) =
      Return (Some {| at_category := "geography"; at_index := 1 |}).
Proof.
  apply (question_id_round_trip ascii_ToLower_idemp qq "" 1 3
           {| at_category := "geography"; at_index := 1 |} 1).
  - exact qq_keyed_by_category.
  - unfold is_int, int_min, int_max. lia.
  - reflexivity.
Defined.

Lemma GetTrivia_keeps_questions_witness :
  ∃ res s',
    GetTrivia Q {| GetTriviaRequest.Category := "World History" |} 1 2
      [(3, 1); (2, 0); (1, 1)] = Return (res, s') ∧
    s'.(Categories) = Q.(Categories) ∧ dom s'.(M) = dom Q.(M) ∧
    ∀ k, Forall2 reordered (at_key Q k) (at_key s' k).
Proof.
  assert (Hex : ∃ res s',
    GetTrivia Q {| GetTriviaRequest.Category := "World History" |} 1 2
      [(3, 1); (2, 0); (1, 1)] = Return (res, s')) by (eexists _, _; reflexivity).
  destruct Hex as (res & s' & Hret). exists res, s'.
  split; [exact Hret | exact (GetTrivia_keeps_questions _ _ _ _ _ _ _ Hret)].
Defined.

Lemma GetTrivia_then_GetGuess_witness :
  ∃ res s' v p question,
    GetTrivia Q {| GetTriviaRequest.Category := "World History" |} 1 2
      [(3, 1); (2, 0); (1, 1)] = Return (res, s') ∧
    res.(payload) = TriviaJSON v ∧
    GetQuestionById Q v.(GetTriviaResponse.QuestionId) = Return (Some p) ∧
    load Q p = Return question ∧
    v.(GetTriviaResponse.Question) = question.(Text) ∧
    GetGuess s' {| GetGuessRequest.QuestionId := v.(GetTriviaResponse.QuestionId);
                   GetGuessRequest.Guess := "seven" |} =
    Return {| code := 200;
              payload := GuessJSON {|
                GetGuessResponse.QuestionId := v.(GetTriviaResponse.QuestionId);
                GetGuessResponse.Correct := EqualFold question.(Answer) "seven" |} |}.
Proof.
  assert (Hex : ∃ res s',
    GetTrivia Q {| GetTriviaRequest.Category := "World History" |} 1 2
      [(3, 1); (2, 0); (1, 1)] = Return (res, s') ∧ res.(code) = 200)
    by (eexists _, _; split; reflexivity).
  destruct Hex as (res & s' & Hret & Hcode). exists res, s'.
  assert (Hr2 : is_int 2) by (unfold is_int, int_min, int_max; lia).
  assert (Hguess : "seven" ≠ "") by discriminate.
  destruct (GetTrivia_then_GetGuess ascii_ToLower_idemp Q _ 1 2 _ res s' "seven"
              Q_keyed_by_category Hr2 Hret Hcode Hguess)
    as (v & p & question & Hrest).
  exists v, p, question. split; [exact Hret | exact Hrest].
Defined.

Lemma GetTrivia_response_witness :
  ∃ res s' v p i question,
    GetTrivia qq {| GetTriviaRequest.Category := "" |} 1 3 [] = Return (res, s') ∧
    res.(payload) = TriviaJSON v ∧
    GetRandomQuestion qq "" 1 3 = Return (Some p, i) ∧
    load qq p = Return question ∧ res.(code) = 200 ∧
    v.(GetTriviaResponse.QuestionId) = question.(Category) +:+ "|" +:+ Itoa i ∧
    v.(GetTriviaResponse.Question) = question.(Text) ∧
    v.(GetTriviaResponse.Category) = question.(Category) ∧
    v.(GetTriviaResponse.Format) = question.(Format) ∧
    if decide (question.(Format) = "MultipleChoice") then
      ∃ a b c d cs,
        v.(GetTriviaResponse.Choices) =
          Some {[ "A" := a; "B" := b; "C" := c; "D" := d ]} ∧
        question.(Choices) = Some cs ∧ [a; b; c; d] ≡ₚ cs
    else v.(GetTriviaResponse.Choices) = None.
Proof.
  assert (Hex : ∃ res s' v,
    GetTrivia qq {| GetTriviaRequest.Category := "" |} 1 3 [] = Return (res, s') ∧
    res.(payload) = TriviaJSON v) by (eexists _, _, _; split; reflexivity).
  destruct Hex as (res & s' & v & Hret & Hpayload). exists res, s', v.
  destruct (GetTrivia_response qq _ 1 3 _ _ _ _ Hret Hpayload)
    as (p & i & question & Hrest).
  exists p, i, question. split; [exact Hret |]. split; [exact Hpayload | exact Hrest].
Defined.

Lemma GetTrivia_nil_choices_panics_witness :
  GetTrivia (store_of rome_without_choices)
    {| GetTriviaRequest.Category := "World History" |} 1 2 [] =
  Panicked IndexOutOfRange.
Proof.
  apply (GetTrivia_nil_choices_panics (store_of rome_without_choices)
           {| GetTriviaRequest.Category := "World History" |} 1 2 []
           {| at_category := "world history"; at_index := 0 |} 0
           rome_without_choices); reflexivity.
Defined.

Lemma GetTrivia_wrong_number_of_choices_witness :
  ∃ cs' s',
    Shuffle [(2, 0)] ["Eight"; "Four"; "Seven"] = Return cs' ∧
    at_key s' "world history" !! 0%nat =
      Some {| Text := rome_with_three_choices.(Text);
              Category := rome_with_three_choices.(Category);
              Format := rome_with_three_choices.(Format);
              Choices := Some cs';
              Answer := rome_with_three_choices.(Answer) |} ∧
    GetTrivia (store_of rome_with_three_choices)
      {| GetTriviaRequest.Category := "World History" |} 1 2 [(2, 0)] =
      Return ({| code := 500;
                 payload := ErrorJSON {|
                   ErrorResponse.Error := true;
                   ErrorResponse.Data := ∅;
                   ErrorResponse.Message := "internal server error" |} |}, s').
Proof.
  apply (GetTrivia_wrong_number_of_choices (store_of rome_with_three_choices)
           {| GetTriviaRequest.Category := "World History" |} 1 2 [(2, 0)]
           {| at_category := "world history"; at_index := 0 |} 0
           rome_with_three_choices ["Eight"; "Four"; "Seven"]);
    try reflexivity.
  - simpl. lia.
  - repeat constructor; simpl; unfold len; simpl; lia.
Defined.

Lemma GetGuess_missing_parameters_witness :
  ∃ data,
    GetGuess Q {| GetGuessRequest.QuestionId := "World History|0";
                  GetGuessRequest.Guess := "" |} =
      Return {| code := 400;
                payload := ErrorJSON {|
                  ErrorResponse.Error := true;
                  ErrorResponse.Data := data;
                  ErrorResponse.Message := "" |} |} ∧
    ∀ k, data !! k =
         if decide ((k = "guess" ∧ "" = "") ∨
                    (k = "question_id" ∧ "World History|0" = ""))
         then Some "required parameter missing" else None.
Proof.
  apply (GetGuess_missing_parameters Q
           {| GetGuessRequest.QuestionId := "World History|0";
              GetGuessRequest.Guess := "" |}).
  left. reflexivity.
Defined.

Lemma GetGuess_malformed_id_witness :
  GetGuess Q {| GetGuessRequest.QuestionId := "hey"; GetGuessRequest.Guess := "Seven" |} =
  Return {| code := 404;
            payload := ErrorJSON {|
              ErrorResponse.Error := true;
              ErrorResponse.Data := {[ "question_id" := "invalid or malformed" ]};
              ErrorResponse.Message := "" |} |}.
Proof.
  apply (GetGuess_malformed_id Q "hey" "Seven"); [discriminate | discriminate |].
  vm_compute. lia.
Defined.

Lemma GetGuess_panics_witness :
  GetGuess Q {| GetGuessRequest.QuestionId := "world history|-1";
                GetGuessRequest.Guess := "Seven" |} = Panicked IndexOutOfRange ↔
  IndexOutOfRange = IndexOutOfRange ∧ "Seven" ≠ "" ∧
  ∃ cat idx i,
    "world history|-1" = cat +:+ "|" +:+ idx ∧
    Count cat "|" = 0%nat ∧ Atoi idx = Some i ∧ i < 0 ∧
    at_key Q (ToLower cat) ≠ [].
Proof.
  exact (GetGuess_panics ascii_ToLower_idemp Q
           {| GetGuessRequest.QuestionId := "world history|-1";
              GetGuessRequest.Guess := "Seven" |} IndexOutOfRange).
Defined.

Lemma expectQuestions_keys :
  ["world history"; "geography"] ≡ₚ elements (dom expectQuestions).
Proof.
  apply NoDup_Permutation.
  - apply (bool_decide_unpack _). by vm_compute.
  - apply NoDup_elements.
  - intros k. rewrite elem_of_elements, elem_of_dom.
    unfold expectQuestions. rewrite !elem_of_cons, elem_of_nil.
    split.
    + intros [-> | [-> | []]]; by eexists.
    + intros [l Hl]. 
      destruct (decide (k = "world history")) as [-> | Hk1]; [auto |].
      destruct (decide (k = "geography")) as [-> | Hk2]; [auto |].
      rewrite lookup_insert_ne, lookup_singleton_ne in Hl by done. done.
Qed.

Lemma Load_new_store_witness :
  (Load fresh (Decoded expectQuestions) ["world history"; "geography"]).2 = false ∧
  qq.(M) = expectQuestions ∧ NoDup qq.(Categories) ∧
  ∀ c, c ∈ qq.(Categories) ↔ is_Some (expectQuestions !! c).
Proof.
  exact (Load_new_store expectQuestions ["world history"; "geography"]
           expectQuestions_keys).
Defined.


Lemma Load_then_GetRandomQuestion_witness :
  ∃ p i l question,
    GetRandomQuestion qq "" 1 3 = Return (Some p, i) ∧
    p.(at_index) = i ∧
    expectQuestions !! p.(at_category) = Some l ∧ l !! Z.to_nat i = Some question.
Proof.
  apply (Load_then_GetRandomQuestion expectQuestions ["world history"; "geography"] 1 3).
  - exact expectQuestions_keys.
  - intros Hempty. assert (Hl : expectQuestions !! "geography" = None)
      by (by rewrite Hempty). discriminate Hl.
  - apply map_Forall_lookup. apply (bool_decide_unpack _). by vm_compute.
  - lia.
  - lia.
Defined.

End Instances.
